(** * Apollo MCP server: validation, provider client and normalizers

    A shallow embedding of
    - [src/apollo/types.ts]   (the provider and canonical record shapes),
    - [src/apollo/client.ts]  (class [ApolloClient]),
    - [src/tools/search.ts]   ([searchPeopleInputSchema], [executeSearchPeople]),
    - [src/tools/enrich.ts]   ([enrichPersonInputSchema], [executeEnrichPerson]),
    followed by the properties of the validation / normalization layer.

    Conventions.
    - A JavaScript value that may be [undefined] or [null] is an [option];
      the code never distinguishes the two (it only tests truthiness or
      passes the value on).
    - Numbers that occur (page numbers, counts, HTTP status codes) are
      integers and are modelled in [Z].
    - Promises are modelled by their outcome: a rejected promise / thrown
      exception is [inl e], a fulfilled one is [inr v].
    - The network is an explicit argument [fetch] of every function that
      performs a request. *)

From stdpp Require Import gmap strings list option pretty.

Set Warnings "-clear-no-such-hyp".

Open Scope Z_scope.
Open Scope string_scope.
Open Scope list_scope.

(** ** JavaScript truthiness and the [||] idiom *)

Module Js.

  (** A string is falsy exactly when it is empty. *)
Definition truthy_string (s : string) : bool := negb (String.eqb s "").

  (** A number is falsy exactly when it is zero (NaN does not occur in JSON). *)
Definition truthy_number (z : Z) : bool := negb (Z.eqb z 0).

Definition truthy_opt {A} (truthy : A → bool) (o : option A) : bool :=
    match o with
    | Some a => truthy a
    | None => false
    end.

  (** [a || b] where both sides are possibly-missing values. *)
Definition or_opt {A} (truthy : A → bool) (a b : option A) : option A :=
    if truthy_opt truthy a then a else b.

  (** [a || d] where [d] is a definite default. *)
Definition or_default {A} (truthy : A → bool) (a : option A) (d : A) : A :=
    match a with
    | Some x => if truthy x then x else d
    | None => d
    end.

  (** [a || null]. *)
Definition or_null {A} (truthy : A → bool) (a : option A) : option A :=
    or_opt truthy a None.

  (** [o?.f] : optional chaining through a possibly-missing object. *)
Definition chain {O A} (o : option O) (f : O → option A) : option A :=
    match o with
    | Some x => f x
    | None => None
    end.

  (** [Array.prototype.includes] on an array of strings. *)
Definition includes (l : list string) (s : string) : bool :=
    existsb (String.eqb s) l.

  (** [Array.prototype.push], as a pure function. *)
Definition push {A} (l : list A) (x : A) : list A := l ++ [x].

End Js.

(** ** JSON values, used for tool inputs and request bodies *)

#[warnings="-register-all"] Inductive json :=
| JNull
| JBool (b : bool)
| JNum (z : Z)
| JStr (s : string)
| JArr (l : list json)
| JObj (l : list (string * json)).

(** [Record<string, unknown>] *)
Abbreviation jsobject := (gmap string json).

(** ** Exceptions and promise outcomes *)

Inductive ZodIssue :=
| invalid_field (path : string)
| custom (message : string).

Inductive exn :=
| ZodError (issues : list ZodIssue)
| Error (message : string)
| FetchFailed (reason : string).

Definition outcome (A : Type) : Type := exn + A.

Definition throw {A} (e : exn) : outcome A := inl e.
Definition ret {A} (a : A) : outcome A := inr a.

Definition bind {A B} (m : outcome A) (k : A → outcome B) : outcome B :=
  match m with
  | inl e => inl e
  | inr a => k a
  end.

Notation "'let!' x ':=' m 'in' k" := (bind m (fun x => k))
  (at level 10, x name, m at level 100, k at level 200).

(** ** src/apollo/types.ts *)

Module ApolloOrganization.
Record t := mk {
    id : string;
    name : option string;
    website_url : option string;
    linkedin_url : option string;
    primary_domain : option string;
    logo_url : option string;
    industry : option string;
    estimated_num_employees : option Z;
  }.
End ApolloOrganization.
Abbreviation ApolloOrganization := ApolloOrganization.t.

Module ApolloEmployment.
Record t := mk {
    id : string;
    title : option string;
    organization_name : option string;
    organization_id : option string;
    current : bool;
    start_date : option string;
    end_date : option string;
  }.
End ApolloEmployment.
Abbreviation ApolloEmployment := ApolloEmployment.t.

Module ApolloPersonSearch.
Record t := mk {
    id : string;
    first_name : option string;
    last_name : option string;
    name : option string;
    title : option string;
    headline : option string;
    linkedin_url : option string;
    email_status : option string;
    photo_url : option string;
    twitter_url : option string;
    github_url : option string;
    facebook_url : option string;
    state : option string;
    city : option string;
    country : option string;
    organization_id : option string;
    organization : option ApolloOrganization;
    employment_history : option (list ApolloEmployment);
  }.
End ApolloPersonSearch.
Abbreviation ApolloPersonSearch := ApolloPersonSearch.t.

(** The interface declares [sanitized_number: string]; the guard in
    [normalizeEnrichedPerson] also covers an entry that lacks the key, so
    the field is optional here. *)
Module ApolloPhoneNumber.
Record t := mk {
    raw_number : string;
    sanitized_number : option string;
    type : string;
    position : Z;
    status : string;
  }.
End ApolloPhoneNumber.
Abbreviation ApolloPhoneNumber := ApolloPhoneNumber.t.

Module ApolloEnrichedPerson.
Record t := mk {
    id : string;
    first_name : option string;
    last_name : option string;
    name : option string;
    title : option string;
    headline : option string;
    linkedin_url : option string;
    email : option string;
    email_status : option string;
    personal_emails : option (list string);
    phone_numbers : option (list ApolloPhoneNumber);
    sanitized_phone : option string;
    organization_id : option string;
    organization : option ApolloOrganization;
    photo_url : option string;
    twitter_url : option string;
    github_url : option string;
    facebook_url : option string;
    state : option string;
    city : option string;
    country : option string;
    employment_history : option (list ApolloEmployment);
  }.
End ApolloEnrichedPerson.
Abbreviation ApolloEnrichedPerson := ApolloEnrichedPerson.t.

Module Pagination.
Record t := mk {
    page : Z;
    per_page : Z;
    total_entries : Z;
    total_pages : Z;
  }.
End Pagination.
Abbreviation Pagination := Pagination.t.

Module ApolloSearchResponse.
Record t := mk {
    people : list ApolloPersonSearch;
    pagination : Pagination;
  }.
End ApolloSearchResponse.
Abbreviation ApolloSearchResponse := ApolloSearchResponse.t.

Module ApolloEnrichmentRequest.
Record t := mk {
    email : option string;
    linkedin_url : option string;
    first_name : option string;
    last_name : option string;
    name : option string;
    organization_name : option string;
    domain : option string;
    reveal_personal_emails : option bool;
    reveal_phone_number : option bool;
    run_waterfall_email : option bool;
    run_waterfall_phone : option bool;
    webhook_url : option string;
  }.
End ApolloEnrichmentRequest.
Abbreviation ApolloEnrichmentRequest := ApolloEnrichmentRequest.t.

Module ApolloEnrichmentResponse.
Record t := mk {
    person : option ApolloEnrichedPerson;
    status : string;
    enrichment_request_id : option string;
    enrichment_status : option string;
    credits_used : option Z;
  }.
End ApolloEnrichmentResponse.
Abbreviation ApolloEnrichmentResponse := ApolloEnrichmentResponse.t.

Module Location.
Record t := mk {
    city : option string;
    state : option string;
    country : option string;
  }.
End Location.

Module Company.
Record t := mk {
    id : option string;
    name : option string;
    domain : option string;
    website : option string;
    linkedin_url : option string;
    industry : option string;
    employee_count : option Z;
  }.
End Company.

Module Social.
Record t := mk {
    twitter_url : option string;
    github_url : option string;
    facebook_url : option string;
  }.
End Social.

Module NormalizedPerson.
Record t := mk {
    apollo_id : string;
    name : option string;
    first_name : option string;
    last_name : option string;
    title : option string;
    headline : option string;
    linkedin_url : option string;
    email : option string;
    email_status : option string;
    personal_emails : list string;
    phone_numbers : list string;
    location : Location.t;
    company : Company.t;
    social : Social.t;
  }.
End NormalizedPerson.
Abbreviation NormalizedPerson := NormalizedPerson.t.

Module SearchResult.
Record t := mk {
    people : list NormalizedPerson;
    pagination : Pagination;
  }.
End SearchResult.
Abbreviation SearchResult := SearchResult.t.

Module EnrichmentResult.
Record t := mk {
    person : option NormalizedPerson;
    status : string;
    enrichment_request_id : option string;
    enrichment_status : option string;
    is_async : bool;
    webhook_url : option string;
  }.
End EnrichmentResult.
Abbreviation EnrichmentResult := EnrichmentResult.t.

(** ** src/apollo/client.ts *)

(** *** The HTTP boundary ([fetch])

    [JSON.stringify(body)] is kept as the object it serializes.  A response
    carries its [ok] flag, status line, and the outcomes of reading it as
    text and as JSON (either read can reject). *)

Module RequestInit.
Record t := mk {
    method : string;
    headers : list (string * string);
    body : jsobject;
  }.
End RequestInit.

Module Response.
Record t (B : Type) := mk {
    ok : bool;
    status : Z;
    statusText : string;
    text : outcome string;
    json : outcome B;
  }.
Arguments mk {B}.
Arguments ok {B}.
Arguments status {B}.
Arguments statusText {B}.
Arguments text {B}.
Arguments json {B}.
End Response.

(** What the two endpoints answer, before the client fills in defaults:
    every key may be missing. *)

Module RawPagination.
Record t := mk {
    page : option Z;
    per_page : option Z;
    total_entries : option Z;
    total_pages : option Z;
  }.
End RawPagination.

Module RawSearchBody.
Record t := mk {
    people : option (list ApolloPersonSearch);
    pagination : option RawPagination.t;
  }.
End RawSearchBody.

Module RawEnrichBody.
Record t := mk {
    person : option ApolloEnrichedPerson;
    status : option string;
    enrichment_request_id : option string;
    enrichment_status : option string;
    credits_used : option Z;
  }.
End RawEnrichBody.

(** The parameter object of [ApolloClient.searchPeople]. *)
Module SearchParams.
Record t := mk {
    person_titles : option (list string);
    person_locations : option (list string);
    q_keywords : option string;
    page : option Z;
    per_page : option Z;
  }.
End SearchParams.

Definition APOLLO_BASE_URL : string := "https://api.apollo.io/api/v1".
Definition SEARCH_ENDPOINT : string := APOLLO_BASE_URL +:+ "/mixed_people/search".
Definition ENRICHMENT_ENDPOINT : string := APOLLO_BASE_URL +:+ "/people/match".

(** [if (o) body.k = o] for a string-valued parameter. *)
Definition set_string (k : string) (o : option string) (body : jsobject) : jsobject :=
  match o with
  | Some s => if Js.truthy_string s then <[k := JStr s]> body else body
  | None => body
  end.

(** [if (o) body.k = true] for a flag. *)
Definition set_true (k : string) (o : option bool) (body : jsobject) : jsobject :=
  if Js.truthy_opt (fun b : bool => b) o then <[k := JBool true]> body else body.

(** [if (o && o.length > 0) body.k = o] for an array of strings. *)
Definition set_strings (k : string) (o : option (list string)) (body : jsobject) : jsobject :=
  match o with
  | Some l => if (0 <? length l)%nat then <[k := JArr (JStr <$> l)]> body else body
  | None => body
  end.

Module ApolloClient.

Record t := mk { apiKey : string }.

(** [constructor(apiKey)] *)
Definition constructor (apiKey : string) : outcome t :=
  if negb (Js.truthy_string apiKey)
  then throw (Error "Apollo API key is required")
  else ret (mk apiKey).

(** The options object [makeRequest] hands to [fetch]. *)
Definition request_init (this : t) (body : jsobject) : RequestInit.t :=
  RequestInit.mk "POST"
    [("Content-Type", "application/json");
     ("x-api-key", apiKey this);
     ("Cache-Control", "no-cache")]
    body.

(** [private async makeRequest(url, body)] *)
Definition makeRequest {B} (fetch : string → RequestInit.t → outcome (Response.t B))
    (this : t) (url : string) (body : jsobject) : outcome B :=
  let! response := fetch url (request_init this body) in
  if negb (Response.ok response) then
    let errorText :=
      match Response.text response with
      | inr txt => txt
      | inl _ => "Unknown error"
      end in
    throw (Error ("Apollo API error: " +:+ pretty (Response.status response)
                    +:+ " " +:+ Response.statusText response))
  else Response.json response.

(** The request body assembled by [searchPeople]. *)
Definition searchPeople_body (params : SearchParams.t) : jsobject :=
  let body : jsobject :=
    <["per_page" :=
        JNum (Z.min (Js.or_default Js.truthy_number (SearchParams.per_page params) 25) 100)]>
    (<["page" := JNum (Js.or_default Js.truthy_number (SearchParams.page params) 1)]> ∅) in
  let body := set_strings "person_titles" (SearchParams.person_titles params) body in
  let body := set_strings "person_locations" (SearchParams.person_locations params) body in
  let body := set_string "q_keywords" (SearchParams.q_keywords params) body in
  body.

(** [async searchPeople(params)] *)
Definition searchPeople (fetch : string → RequestInit.t → outcome (Response.t RawSearchBody.t))
    (this : t) (params : SearchParams.t) : outcome ApolloSearchResponse :=
  let body := searchPeople_body params in
  let! response := makeRequest fetch this SEARCH_ENDPOINT body in
  let pagination := RawSearchBody.pagination response in
  ret (ApolloSearchResponse.mk
         (* response.people || [] *)
         (default [] (RawSearchBody.people response))
         (Pagination.mk
            (* response.pagination?.page || params.page || 1 *)
            (Js.or_default Js.truthy_number
               (Js.or_opt Js.truthy_number
                  (Js.chain pagination RawPagination.page) (SearchParams.page params)) 1)
            (* response.pagination?.per_page || params.per_page || 25 *)
            (Js.or_default Js.truthy_number
               (Js.or_opt Js.truthy_number
                  (Js.chain pagination RawPagination.per_page) (SearchParams.per_page params)) 25)
            (* response.pagination?.total_entries || 0 *)
            (Js.or_default Js.truthy_number
               (Js.chain pagination RawPagination.total_entries) 0)
            (* response.pagination?.total_pages || 0 *)
            (Js.or_default Js.truthy_number
               (Js.chain pagination RawPagination.total_pages) 0))).

(** The request body assembled by [enrichPerson], key by key in source
    order. *)
Definition enrichPerson_body (params : ApolloEnrichmentRequest) : jsobject :=
  let body : jsobject := ∅ in
  (* Identifiers *)
  let body := set_string "email" (ApolloEnrichmentRequest.email params) body in
  let body := set_string "linkedin_url" (ApolloEnrichmentRequest.linkedin_url params) body in
  let body := set_string "first_name" (ApolloEnrichmentRequest.first_name params) body in
  let body := set_string "last_name" (ApolloEnrichmentRequest.last_name params) body in
  let body := set_string "name" (ApolloEnrichmentRequest.name params) body in
  let body := set_string "organization_name" (ApolloEnrichmentRequest.organization_name params) body in
  let body := set_string "domain" (ApolloEnrichmentRequest.domain params) body in
  (* Reveal flags *)
  let body := set_true "reveal_personal_emails" (ApolloEnrichmentRequest.reveal_personal_emails params) body in
  let body := set_true "reveal_phone_number" (ApolloEnrichmentRequest.reveal_phone_number params) body in
  (* Waterfall enrichment *)
  let body := set_true "run_waterfall_email" (ApolloEnrichmentRequest.run_waterfall_email params) body in
  let body := set_true "run_waterfall_phone" (ApolloEnrichmentRequest.run_waterfall_phone params) body in
  let body := set_string "webhook_url" (ApolloEnrichmentRequest.webhook_url params) body in
  body.

(** [async enrichPerson(params)] *)
Definition enrichPerson (fetch : string → RequestInit.t → outcome (Response.t RawEnrichBody.t))
    (this : t) (params : ApolloEnrichmentRequest) : outcome ApolloEnrichmentResponse :=
  let body := enrichPerson_body params in
  let! response := makeRequest fetch this ENRICHMENT_ENDPOINT body in
  ret (ApolloEnrichmentResponse.mk
         (* response.person || null : an object is always truthy *)
         (RawEnrichBody.person response)
         (Js.or_default Js.truthy_string (RawEnrichBody.status response) "unknown")
         (RawEnrichBody.enrichment_request_id response)
         (RawEnrichBody.enrichment_status response)
         (RawEnrichBody.credits_used response)).

(** The [company] block shared by both normalizers:
    [id] comes from the person, every other field from
    [person.organization?.f || null]. *)
Definition company_of (organization_id : option string)
    (organization : option ApolloOrganization) : Company.t :=
  Company.mk
    organization_id
    (Js.or_null Js.truthy_string (Js.chain organization ApolloOrganization.name))
    (Js.or_null Js.truthy_string (Js.chain organization ApolloOrganization.primary_domain))
    (Js.or_null Js.truthy_string (Js.chain organization ApolloOrganization.website_url))
    (Js.or_null Js.truthy_string (Js.chain organization ApolloOrganization.linkedin_url))
    (Js.or_null Js.truthy_string (Js.chain organization ApolloOrganization.industry))
    (Js.or_null Js.truthy_number (Js.chain organization ApolloOrganization.estimated_num_employees)).

(** [static normalizeSearchPerson(person)] *)
Definition normalizeSearchPerson (person : ApolloPersonSearch) : NormalizedPerson :=
  NormalizedPerson.mk
    (ApolloPersonSearch.id person)
    (ApolloPersonSearch.name person)
    (ApolloPersonSearch.first_name person)
    (ApolloPersonSearch.last_name person)
    (ApolloPersonSearch.title person)
    (ApolloPersonSearch.headline person)
    (ApolloPersonSearch.linkedin_url person)
    None
    (ApolloPersonSearch.email_status person)
    []
    []
    (Location.mk
       (ApolloPersonSearch.city person)
       (ApolloPersonSearch.state person)
       (ApolloPersonSearch.country person))
    (company_of (ApolloPersonSearch.organization_id person)
                (ApolloPersonSearch.organization person))
    (Social.mk
       (ApolloPersonSearch.twitter_url person)
       (ApolloPersonSearch.github_url person)
       (ApolloPersonSearch.facebook_url person)).

(** One iteration of the [for (const phone of person.phone_numbers)] loop. *)
Definition push_phone (phoneNumbers : list string) (phone : ApolloPhoneNumber) : list string :=
  match ApolloPhoneNumber.sanitized_number phone with
  | Some s =>
      if Js.truthy_string s && negb (Js.includes phoneNumbers s)
      then Js.push phoneNumbers s
      else phoneNumbers
  | None => phoneNumbers
  end.

(** The [phoneNumbers] array built at the start of
    [normalizeEnrichedPerson]. *)
Definition collect_phoneNumbers (person : ApolloEnrichedPerson) : list string :=
  let phoneNumbers : list string := [] in
  let phoneNumbers :=
    match ApolloEnrichedPerson.sanitized_phone person with
    | Some s => if Js.truthy_string s then Js.push phoneNumbers s else phoneNumbers
    | None => phoneNumbers
    end in
  match ApolloEnrichedPerson.phone_numbers person with
  | Some phones => fold_left push_phone phones phoneNumbers
  | None => phoneNumbers
  end.

(** [static normalizeEnrichedPerson(person)] *)
Definition normalizeEnrichedPerson (person : ApolloEnrichedPerson) : NormalizedPerson :=
  let phoneNumbers := collect_phoneNumbers person in
  NormalizedPerson.mk
    (ApolloEnrichedPerson.id person)
    (ApolloEnrichedPerson.name person)
    (ApolloEnrichedPerson.first_name person)
    (ApolloEnrichedPerson.last_name person)
    (ApolloEnrichedPerson.title person)
    (ApolloEnrichedPerson.headline person)
    (ApolloEnrichedPerson.linkedin_url person)
    (ApolloEnrichedPerson.email person)
    (ApolloEnrichedPerson.email_status person)
    (default [] (ApolloEnrichedPerson.personal_emails person))
    phoneNumbers
    (Location.mk
       (ApolloEnrichedPerson.city person)
       (ApolloEnrichedPerson.state person)
       (ApolloEnrichedPerson.country person))
    (company_of (ApolloEnrichedPerson.organization_id person)
                (ApolloEnrichedPerson.organization person))
    (Social.mk
       (ApolloEnrichedPerson.twitter_url person)
       (ApolloEnrichedPerson.github_url person)
       (ApolloEnrichedPerson.facebook_url person)).

End ApolloClient.

(** ** Schema checks (zod)

    Tool arguments arrive as a JSON object; a key that is absent reads as
    [undefined].  A field schema maps the value found at its key to the
    parsed value, or to [None] when the value is rejected.  String lengths
    are counted per character, which agrees with JavaScript's [length] on
    ASCII text. *)

Module z.

(** The [.email()] and [.url()] string formats are implemented inside the
    zod package, which is not part of this repository: they are taken as
    parameters. *)
Record formats := mk_formats {
    is_email : string → bool;
    is_url : string → bool;
  }.

(** [z.string()] followed by a check. *)
Definition string_ (check : string → bool) (v : json) : option string :=
  match v with
  | JStr s => if check s then Some s else None
  | _ => None
  end.

(** [.max(n)] on a string. *)
Definition max_length (n : nat) (s : string) : bool := (String.length s <=? n)%nat.

(** [z.boolean()] *)
Definition boolean (v : json) : option bool :=
  match v with
  | JBool b => Some b
  | _ => None
  end.

(** [z.number().int().min(lo).max(hi)] *)
Definition int_between (lo hi : Z) (v : json) : option Z :=
  match v with
  | JNum n => if (lo <=? n)%Z && (n <=? hi)%Z then Some n else None
  | _ => None
  end.

(** The elements of an array all of whose items are strings. *)
Fixpoint strings_of (l : list json) : option (list string) :=
  match l with
  | [] => Some []
  | JStr s :: l' =>
      match strings_of l' with
      | Some ss => Some (s :: ss)
      | None => None
      end
  | _ :: _ => None
  end.

(** [z.array(z.string()).min(lo).max(hi)] *)
Definition strings_between (lo hi : nat) (v : json) : option (list string) :=
  match v with
  | JArr l =>
      match strings_of l with
      | Some ss =>
          if (lo <=? length ss)%nat && (length ss <=? hi)%nat then Some ss else None
      | None => None
      end
  | _ => None
  end.

(** A key without [.optional()]. *)
Definition required {A} (schema : json → option A) (v : option json) : option A :=
  match v with
  | Some j => schema j
  | None => None
  end.

(** [.optional()] *)
Definition optional {A} (schema : json → option A) (v : option json) : option (option A) :=
  match v with
  | Some j =>
      match schema j with
      | Some a => Some (Some a)
      | None => None
      end
  | None => Some None
  end.

(** [.optional().default(d)] *)
Definition with_default {A} (schema : json → option A) (d : A) (v : option json) : option A :=
  match v with
  | Some j => schema j
  | None => Some d
  end.

(** The issue raised for a key whose value was rejected. *)
Definition issue_at {A} (path : string) (parsed : option A) : list ZodIssue :=
  match parsed with
  | Some _ => []
  | None => [invalid_field path]
  end.

(** The issue raised by a [.refine(predicate, { message })]. *)
Definition refine_issue (holds : bool) (message : string) : list ZodIssue :=
  if holds then [] else [custom message].

End z.

(** ** src/tools/search.ts *)

Module SearchPeopleInput.
Record t := mk {
    person_titles : list string;
    person_locations : option (list string);
    q_keywords : option string;
    page : Z;
    per_page : Z;
  }.
End SearchPeopleInput.

(** [searchPeopleInputSchema.parse(input)] *)
Definition searchPeopleInputSchema (input : jsobject) : outcome SearchPeopleInput.t :=
  let person_titles := z.required (z.strings_between 1 50) (input !! "person_titles") in
  let person_locations := z.optional (z.strings_between 0 50) (input !! "person_locations") in
  let q_keywords := z.optional (z.string_ (z.max_length 500)) (input !! "q_keywords") in
  let page := z.with_default (z.int_between 1 100) 1 (input !! "page") in
  let per_page := z.with_default (z.int_between 1 100) 25 (input !! "per_page") in
  match person_titles, person_locations, q_keywords, page, per_page with
  | Some person_titles, Some person_locations, Some q_keywords, Some page, Some per_page =>
      ret (SearchPeopleInput.mk person_titles person_locations q_keywords page per_page)
  | _, _, _, _, _ =>
      throw (ZodError (z.issue_at "person_titles" person_titles
                         ++ z.issue_at "person_locations" person_locations
                         ++ z.issue_at "q_keywords" q_keywords
                         ++ z.issue_at "page" page
                         ++ z.issue_at "per_page" per_page))
  end.

(** The argument object [executeSearchPeople] passes to
    [client.searchPeople]. *)
Definition searchPeople_params (validatedInput : SearchPeopleInput.t) : SearchParams.t :=
  SearchParams.mk
    (Some (SearchPeopleInput.person_titles validatedInput))
    (SearchPeopleInput.person_locations validatedInput)
    (SearchPeopleInput.q_keywords validatedInput)
    (Some (SearchPeopleInput.page validatedInput))
    (Some (SearchPeopleInput.per_page validatedInput)).

(** [executeSearchPeople(client, input)] *)
Definition executeSearchPeople
    (fetch : string → RequestInit.t → outcome (Response.t RawSearchBody.t))
    (client : ApolloClient.t) (input : jsobject) : outcome SearchResult :=
  (* Validate input *)
  let! validatedInput := searchPeopleInputSchema input in
  (* Call Apollo API *)
  let! response :=
    ApolloClient.searchPeople fetch client (searchPeople_params validatedInput) in
  (* Normalize results *)
  let normalizedPeople :=
    ApolloClient.normalizeSearchPerson <$> ApolloSearchResponse.people response in
  ret (SearchResult.mk normalizedPeople (ApolloSearchResponse.pagination response)).

(** ** src/tools/enrich.ts *)

Module EnrichPersonInput.
Record t := mk {
    email : option string;
    linkedin_url : option string;
    first_name : option string;
    last_name : option string;
    name : option string;
    organization_name : option string;
    domain : option string;
    reveal_personal_emails : bool;
    reveal_phone_number : bool;
    run_waterfall_email : option bool;
    run_waterfall_phone : option bool;
    webhook_url : option string;
  }.
End EnrichPersonInput.

(** The [z.object({...})] part of [enrichPersonInputSchema]. *)
Definition enrichPersonInputObject (fmt : z.formats) (input : jsobject)
    : outcome EnrichPersonInput.t :=
  let email := z.optional (z.string_ (z.is_email fmt)) (input !! "email") in
  let linkedin_url := z.optional (z.string_ (z.is_url fmt)) (input !! "linkedin_url") in
  let first_name := z.optional (z.string_ (z.max_length 100)) (input !! "first_name") in
  let last_name := z.optional (z.string_ (z.max_length 100)) (input !! "last_name") in
  let name := z.optional (z.string_ (z.max_length 200)) (input !! "name") in
  let organization_name :=
    z.optional (z.string_ (z.max_length 200)) (input !! "organization_name") in
  let domain := z.optional (z.string_ (z.max_length 200)) (input !! "domain") in
  let reveal_personal_emails :=
    z.with_default z.boolean false (input !! "reveal_personal_emails") in
  let reveal_phone_number := z.with_default z.boolean false (input !! "reveal_phone_number") in
  let run_waterfall_email := z.optional z.boolean (input !! "run_waterfall_email") in
  let run_waterfall_phone := z.optional z.boolean (input !! "run_waterfall_phone") in
  let webhook_url := z.optional (z.string_ (z.is_url fmt)) (input !! "webhook_url") in
  match email, linkedin_url, first_name, last_name, name, organization_name, domain,
        reveal_personal_emails, reveal_phone_number,
        run_waterfall_email, run_waterfall_phone, webhook_url with
  | Some email, Some linkedin_url, Some first_name, Some last_name, Some name,
    Some organization_name, Some domain,
    Some reveal_personal_emails, Some reveal_phone_number,
    Some run_waterfall_email, Some run_waterfall_phone, Some webhook_url =>
      ret (EnrichPersonInput.mk email linkedin_url first_name last_name name
             organization_name domain reveal_personal_emails reveal_phone_number
             run_waterfall_email run_waterfall_phone webhook_url)
  | _, _, _, _, _, _, _, _, _, _, _, _ =>
      throw (ZodError (z.issue_at "email" email
                         ++ z.issue_at "linkedin_url" linkedin_url
                         ++ z.issue_at "first_name" first_name
                         ++ z.issue_at "last_name" last_name
                         ++ z.issue_at "name" name
                         ++ z.issue_at "organization_name" organization_name
                         ++ z.issue_at "domain" domain
                         ++ z.issue_at "reveal_personal_emails" reveal_personal_emails
                         ++ z.issue_at "reveal_phone_number" reveal_phone_number
                         ++ z.issue_at "run_waterfall_email" run_waterfall_email
                         ++ z.issue_at "run_waterfall_phone" run_waterfall_phone
                         ++ z.issue_at "webhook_url" webhook_url))
  end.

Definition truthy_str : option string → bool := Js.truthy_opt Js.truthy_string.
Definition truthy_flag : option bool → bool := Js.truthy_opt (fun b : bool => b).

(** First [.refine]: at least one identifier must be provided. *)
Definition refine_identifier (data : EnrichPersonInput.t) : bool :=
  truthy_str (EnrichPersonInput.email data)
  || truthy_str (EnrichPersonInput.linkedin_url data)
  || (truthy_str (EnrichPersonInput.first_name data)
      && truthy_str (EnrichPersonInput.last_name data)
      && (truthy_str (EnrichPersonInput.organization_name data)
          || truthy_str (EnrichPersonInput.domain data)))
  || (truthy_str (EnrichPersonInput.name data)
      && (truthy_str (EnrichPersonInput.organization_name data)
          || truthy_str (EnrichPersonInput.domain data))).

(** Second [.refine]: if waterfall is enabled, [webhook_url] is required. *)
Definition refine_webhook (data : EnrichPersonInput.t) : bool :=
  if truthy_flag (EnrichPersonInput.run_waterfall_email data)
     || truthy_flag (EnrichPersonInput.run_waterfall_phone data)
  then truthy_str (EnrichPersonInput.webhook_url data)
  else true.

Definition identifier_message : string :=
  "At least one identifier required: email, linkedin_url, or (name + company/domain)".
Definition webhook_message : string :=
  "webhook_url is required when run_waterfall_email or run_waterfall_phone is enabled".

(** [enrichPersonInputSchema.parse(input)]: the object schema, then the two
    refinements in the order they are chained. *)
Definition enrichPersonInputSchema (fmt : z.formats) (input : jsobject)
    : outcome EnrichPersonInput.t :=
  let! data := enrichPersonInputObject fmt input in
  match z.refine_issue (refine_identifier data) identifier_message
          ++ z.refine_issue (refine_webhook data) webhook_message with
  | [] => ret data
  | issues => throw (ZodError issues)
  end.

(** [executeEnrichPerson(client, input, serverWebhookUrl?)] *)
Definition executeEnrichPerson (fmt : z.formats)
    (fetch : string → RequestInit.t → outcome (Response.t RawEnrichBody.t))
    (client : ApolloClient.t) (input : jsobject) (serverWebhookUrl : option string)
    : outcome EnrichmentResult :=
  (* Validate input *)
  let! validatedInput := enrichPersonInputSchema fmt input in
  (* Determine if this is async (waterfall) enrichment *)
  let isAsync :=
    truthy_flag (EnrichPersonInput.run_waterfall_email validatedInput)
    || truthy_flag (EnrichPersonInput.run_waterfall_phone validatedInput) in
  (* Use server's webhook URL if waterfall is enabled but no URL provided *)
  let webhookUrl :=
    Js.or_opt Js.truthy_string (EnrichPersonInput.webhook_url validatedInput)
      (if isAsync then serverWebhookUrl else None) in
  (* Call Apollo API *)
  let! response :=
    ApolloClient.enrichPerson fetch client
      (ApolloEnrichmentRequest.mk
         (EnrichPersonInput.email validatedInput)
         (EnrichPersonInput.linkedin_url validatedInput)
         (EnrichPersonInput.first_name validatedInput)
         (EnrichPersonInput.last_name validatedInput)
         (EnrichPersonInput.name validatedInput)
         (EnrichPersonInput.organization_name validatedInput)
         (EnrichPersonInput.domain validatedInput)
         (Some (EnrichPersonInput.reveal_personal_emails validatedInput))
         (Some (EnrichPersonInput.reveal_phone_number validatedInput))
         (EnrichPersonInput.run_waterfall_email validatedInput)
         (EnrichPersonInput.run_waterfall_phone validatedInput)
         webhookUrl) in
  (* Normalize result *)
  let normalizedPerson :=
    ApolloClient.normalizeEnrichedPerson <$> ApolloEnrichmentResponse.person response in
  ret (EnrichmentResult.mk
         normalizedPerson
         (ApolloEnrichmentResponse.status response)
         (ApolloEnrichmentResponse.enrichment_request_id response)
         (ApolloEnrichmentResponse.enrichment_status response)
         isAsync
         (if isAsync then webhookUrl else None)).

(** * Notions used to state the properties, and sample data *)

(** ** Phone-number assembly *)

(** The values the phone loop can take from a person: those that are
    present and non-empty. *)
Definition present (o : option string) : option string :=
  Js.or_null Js.truthy_string o.

Definition present_numbers (phones : list ApolloPhoneNumber) : list string :=
  omap (fun phone => present (ApolloPhoneNumber.sanitized_number phone)) phones.

(** The assembly as the specification words it: start from the single
    sanitized phone, if there is one, then append each sanitized number
    that is not already in the list. *)
Definition append_if_new (acc : list string) (s : string) : list string :=
  if bool_decide (s ∈ acc) then acc else acc ++ [s].

Definition spec_phone_numbers (sanitized_phone : option string) (sanitized : list string)
    : list string :=
  fold_left append_if_new sanitized (option_list sanitized_phone).

(** ** Sample provider records *)

(** [{ ...person, phone_numbers: phones }] *)
Definition with_phone_numbers (person : ApolloEnrichedPerson)
    (phones : option (list ApolloPhoneNumber)) : ApolloEnrichedPerson :=
  {| ApolloEnrichedPerson.id := ApolloEnrichedPerson.id person;
     ApolloEnrichedPerson.first_name := ApolloEnrichedPerson.first_name person;
     ApolloEnrichedPerson.last_name := ApolloEnrichedPerson.last_name person;
     ApolloEnrichedPerson.name := ApolloEnrichedPerson.name person;
     ApolloEnrichedPerson.title := ApolloEnrichedPerson.title person;
     ApolloEnrichedPerson.headline := ApolloEnrichedPerson.headline person;
     ApolloEnrichedPerson.linkedin_url := ApolloEnrichedPerson.linkedin_url person;
     ApolloEnrichedPerson.email := ApolloEnrichedPerson.email person;
     ApolloEnrichedPerson.email_status := ApolloEnrichedPerson.email_status person;
     ApolloEnrichedPerson.personal_emails := ApolloEnrichedPerson.personal_emails person;
     ApolloEnrichedPerson.phone_numbers := phones;
     ApolloEnrichedPerson.sanitized_phone := ApolloEnrichedPerson.sanitized_phone person;
     ApolloEnrichedPerson.organization_id := ApolloEnrichedPerson.organization_id person;
     ApolloEnrichedPerson.organization := ApolloEnrichedPerson.organization person;
     ApolloEnrichedPerson.photo_url := ApolloEnrichedPerson.photo_url person;
     ApolloEnrichedPerson.twitter_url := ApolloEnrichedPerson.twitter_url person;
     ApolloEnrichedPerson.github_url := ApolloEnrichedPerson.github_url person;
     ApolloEnrichedPerson.facebook_url := ApolloEnrichedPerson.facebook_url person;
     ApolloEnrichedPerson.state := ApolloEnrichedPerson.state person;
     ApolloEnrichedPerson.city := ApolloEnrichedPerson.city person;
     ApolloEnrichedPerson.country := ApolloEnrichedPerson.country person;
     ApolloEnrichedPerson.employment_history :=
       ApolloEnrichedPerson.employment_history person |}.

(** An enrichment-result person carrying an id, an e-mail address and the
    id of an organization whose object was not returned. *)
Definition jane_enriched : ApolloEnrichedPerson :=
  {| ApolloEnrichedPerson.id := "64a7f1";
     ApolloEnrichedPerson.first_name := Some "Jane";
     ApolloEnrichedPerson.last_name := Some "Doe";
     ApolloEnrichedPerson.name := Some "Jane Doe";
     ApolloEnrichedPerson.title := Some "CTO";
     ApolloEnrichedPerson.headline := None;
     ApolloEnrichedPerson.linkedin_url := None;
     ApolloEnrichedPerson.email := Some "jane@example.com";
     ApolloEnrichedPerson.email_status := Some "verified";
     ApolloEnrichedPerson.personal_emails := None;
     ApolloEnrichedPerson.phone_numbers := None;
     ApolloEnrichedPerson.sanitized_phone := None;
     ApolloEnrichedPerson.organization_id := Some "5e66b6";
     ApolloEnrichedPerson.organization := None;
     ApolloEnrichedPerson.photo_url := None;
     ApolloEnrichedPerson.twitter_url := None;
     ApolloEnrichedPerson.github_url := None;
     ApolloEnrichedPerson.facebook_url := None;
     ApolloEnrichedPerson.state := None;
     ApolloEnrichedPerson.city := None;
     ApolloEnrichedPerson.country := None;
     ApolloEnrichedPerson.employment_history := None |}.

(** The same person as the search endpoint returns her. *)
Definition jane_search : ApolloPersonSearch :=
  {| ApolloPersonSearch.id := "64a7f1";
     ApolloPersonSearch.first_name := Some "Jane";
     ApolloPersonSearch.last_name := Some "Doe";
     ApolloPersonSearch.name := Some "Jane Doe";
     ApolloPersonSearch.title := Some "CTO";
     ApolloPersonSearch.headline := None;
     ApolloPersonSearch.linkedin_url := None;
     ApolloPersonSearch.email_status := Some "verified";
     ApolloPersonSearch.photo_url := None;
     ApolloPersonSearch.twitter_url := None;
     ApolloPersonSearch.github_url := None;
     ApolloPersonSearch.facebook_url := None;
     ApolloPersonSearch.state := None;
     ApolloPersonSearch.city := None;
     ApolloPersonSearch.country := None;
     ApolloPersonSearch.organization_id := Some "5e66b6";
     ApolloPersonSearch.organization := None;
     ApolloPersonSearch.employment_history := None |}.

Definition phone_entry (sanitized_number : option string) : ApolloPhoneNumber :=
  {| ApolloPhoneNumber.raw_number := "(raw)";
     ApolloPhoneNumber.sanitized_number := sanitized_number;
     ApolloPhoneNumber.type := "mobile";
     ApolloPhoneNumber.position := 0;
     ApolloPhoneNumber.status := "valid_number" |}.

(** An entry carries a number when its [sanitized_number] is truthy. *)
Definition has_sanitized_number (phone : ApolloPhoneNumber) : Prop :=
  Js.truthy_opt Js.truthy_string (ApolloPhoneNumber.sanitized_number phone) = true.

#[global] Instance has_sanitized_number_dec (phone : ApolloPhoneNumber) :
  Decision (has_sanitized_number phone) :=
  decide (Js.truthy_opt Js.truthy_string (ApolloPhoneNumber.sanitized_number phone) = true).

(** The literal assembly of the specification applied to a person: every
    entry's sanitized number is a candidate. *)
Definition spec_phone_numbers_of (person : ApolloEnrichedPerson) : list string :=
  spec_phone_numbers
    (ApolloEnrichedPerson.sanitized_phone person)
    (omap ApolloPhoneNumber.sanitized_number
       (default [] (ApolloEnrichedPerson.phone_numbers person))).

(** ** Request bodies and sample traffic *)

(** A provider that answers 401 to every request. *)
Definition unauthorized {B} : Response.t B :=
  Response.mk false 401 "Unauthorized"
    (inr "{}") (inl (Error "Unexpected end of JSON input")).

Definition fetch_unauthorized {B} (url : string) (init : RequestInit.t)
    : outcome (Response.t B) :=
  inr unauthorized.

(** No key of the object is bound to [false]. *)
Definition never_false (body : jsobject) : Prop :=
  ∀ k, body !! k ≠ Some (JBool false).

(** The identifier keys of the body with the parameter each is copied
    from, and likewise the reveal and waterfall flags. *)
Definition identifier_keys : list (string * (ApolloEnrichmentRequest → option string)) :=
  [("email", ApolloEnrichmentRequest.email);
   ("linkedin_url", ApolloEnrichmentRequest.linkedin_url);
   ("first_name", ApolloEnrichmentRequest.first_name);
   ("last_name", ApolloEnrichmentRequest.last_name);
   ("name", ApolloEnrichmentRequest.name);
   ("organization_name", ApolloEnrichmentRequest.organization_name);
   ("domain", ApolloEnrichmentRequest.domain)].

Definition flag_keys : list (string * (ApolloEnrichmentRequest → option bool)) :=
  [("reveal_personal_emails", ApolloEnrichmentRequest.reveal_personal_emails);
   ("reveal_phone_number", ApolloEnrichmentRequest.reveal_phone_number);
   ("run_waterfall_email", ApolloEnrichmentRequest.run_waterfall_email);
   ("run_waterfall_phone", ApolloEnrichmentRequest.run_waterfall_phone)].

Definition email_only_request : ApolloEnrichmentRequest :=
  {| ApolloEnrichmentRequest.email := Some "a@b.com";
     ApolloEnrichmentRequest.linkedin_url := None;
     ApolloEnrichmentRequest.first_name := None;
     ApolloEnrichmentRequest.last_name := None;
     ApolloEnrichmentRequest.name := None;
     ApolloEnrichmentRequest.organization_name := None;
     ApolloEnrichmentRequest.domain := None;
     ApolloEnrichmentRequest.reveal_personal_emails := Some false;
     ApolloEnrichmentRequest.reveal_phone_number := Some false;
     ApolloEnrichmentRequest.run_waterfall_email := None;
     ApolloEnrichmentRequest.run_waterfall_phone := None;
     ApolloEnrichmentRequest.webhook_url := None |}.

(** Sample traffic: a client, a search for CEOs on page 3 with 10 results
    per page, and three providers.  The first answers with a pagination
    block whose page and page size are zero, the second without any
    pagination block, the third with a complete block. *)
Definition sample_client : ApolloClient.t := ApolloClient.mk "sk-test-0001".

Definition ceo_search : jsobject :=
  {[ "person_titles" := JArr [JStr "CEO"]; "page" := JNum 3; "per_page" := JNum 10 ]}.

Definition ok_response {B} (answer : B) : Response.t B :=
  Response.mk true 200 "OK" (inr "(body)") (inr answer).

Definition fetch_zero_page (url : string) (init : RequestInit.t)
    : outcome (Response.t RawSearchBody.t) :=
  inr (ok_response
         (RawSearchBody.mk (Some [])
            (Some (RawPagination.mk (Some 0%Z) (Some 0%Z) (Some 40%Z) (Some 4%Z))))).

Definition fetch_no_pagination (url : string) (init : RequestInit.t)
    : outcome (Response.t RawSearchBody.t) :=
  inr (ok_response (RawSearchBody.mk (Some [jane_search]) None)).

Definition fetch_full_page (url : string) (init : RequestInit.t)
    : outcome (Response.t RawSearchBody.t) :=
  inr (ok_response
         (RawSearchBody.mk (Some [jane_search])
            (Some (RawPagination.mk (Some 3%Z) (Some 10%Z) (Some 21%Z) (Some 3%Z))))).

(** ** The cross-field rules on the raw tool input *)

(** A key is supplied when the input binds it to a non-empty string. *)
Definition supplied (input : jsobject) (key : string) : Prop :=
  ∃ s, input !! key = Some (JStr s) ∧ s ≠ "".

(** The identifier rule in the words of the specification. *)
Definition has_identifier (input : jsobject) : Prop :=
  supplied input "email"
  ∨ supplied input "linkedin_url"
  ∨ (supplied input "first_name" ∧ supplied input "last_name"
     ∧ (supplied input "organization_name" ∨ supplied input "domain"))
  ∨ (supplied input "name"
     ∧ (supplied input "organization_name" ∨ supplied input "domain")).

(** A waterfall flag is on when the input binds it to [true]. *)
Definition flag_on (input : jsobject) (key : string) : Prop :=
  input !! key = Some (JBool true).

(** The waterfall rule on the raw input. *)
Definition webhook_present_if_async (input : jsobject) : Prop :=
  flag_on input "run_waterfall_email" ∨ flag_on input "run_waterfall_phone" →
  supplied input "webhook_url".

(** Stand-ins for zod's string formats, sufficient for the sample inputs:
    an address has an [@] after at least one character, a URL starts with
    [http://] or [https://]. *)
Definition sample_formats : z.formats :=
  {| z.is_email := fun s =>
       match String.index 0 "@" s with
       | Some (S _) => true
       | _ => false
       end;
     z.is_url := fun s => String.prefix "https://" s || String.prefix "http://" s |}.

Definition email_input : jsobject := {[ "email" := JStr "a@b.com" ]}.

Definition waterfall_input : jsobject :=
  {[ "email" := JStr "a@b.com"; "run_waterfall_email" := JBool true ]}.

Definition sync_input_with_webhook : jsobject :=
  {[ "email" := JStr "a@b.com"; "webhook_url" := JStr "https://caller.example.com/hook" ]}.

Definition server_default : option string := Some "https://mcp.example.com/webhooks/apollo".

Definition fetch_enriched (url : string) (init : RequestInit.t)
    : outcome (Response.t RawEnrichBody.t) :=
  inr (ok_response (RawEnrichBody.mk (Some jane_enriched) (Some "success") None None None)).

(** ** Tool definitions for MCP (src/tools/search.ts, src/tools/enrich.ts)

    The JSON-Schema descriptor each tool advertises: its name, the declared
    properties with their JSON type (and item type for arrays) and the
    list of required keys.  The [description] texts are prose and are left
    out. *)

Module PropertySchema.
Record t := mk {
    type : string;
    items : option string;
  }.
End PropertySchema.

Module InputSchema.
Record t := mk {
    type : string;
    properties : list (string * PropertySchema.t);
    required : list string;
  }.
End InputSchema.

Module ToolDefinition.
Record t := mk {
    name : string;
    inputSchema : InputSchema.t;
  }.
End ToolDefinition.

Definition searchPeopleToolDefinition : ToolDefinition.t :=
  ToolDefinition.mk "apollo_search_people"
    (InputSchema.mk "object"
       [("person_titles", PropertySchema.mk "array" (Some "string"));
        ("person_locations", PropertySchema.mk "array" (Some "string"));
        ("q_keywords", PropertySchema.mk "string" None);
        ("page", PropertySchema.mk "number" None);
        ("per_page", PropertySchema.mk "number" None)]
       ["person_titles"]).

Definition enrichPersonToolDefinition : ToolDefinition.t :=
  ToolDefinition.mk "apollo_enrich_person"
    (InputSchema.mk "object"
       [("email", PropertySchema.mk "string" None);
        ("linkedin_url", PropertySchema.mk "string" None);
        ("first_name", PropertySchema.mk "string" None);
        ("last_name", PropertySchema.mk "string" None);
        ("name", PropertySchema.mk "string" None);
        ("organization_name", PropertySchema.mk "string" None);
        ("domain", PropertySchema.mk "string" None);
        ("reveal_personal_emails", PropertySchema.mk "boolean" None);
        ("reveal_phone_number", PropertySchema.mk "boolean" None);
        ("run_waterfall_email", PropertySchema.mk "boolean" None);
        ("run_waterfall_phone", PropertySchema.mk "boolean" None);
        ("webhook_url", PropertySchema.mk "string" None)]
       []).

(** The keys a tool definition declares. *)
Definition declared_keys (tool : ToolDefinition.t) : list string :=
  fst <$> InputSchema.properties (ToolDefinition.inputSchema tool).

(** The JSON-Schema type name of a value. *)
Definition json_type (v : json) : string :=
  match v with
  | JNull => "null"
  | JBool _ => "boolean"
  | JNum _ => "number"
  | JStr _ => "string"
  | JArr _ => "array"
  | JObj _ => "object"
  end.

(** ** The requests the executors make *)

(** The issues [searchPeopleInputSchema] reports when a key is rejected. *)
Definition search_issues (input : jsobject) : list ZodIssue :=
  z.issue_at "person_titles" (z.required (z.strings_between 1 50) (input !! "person_titles"))
  ++ z.issue_at "person_locations"
       (z.optional (z.strings_between 0 50) (input !! "person_locations"))
  ++ z.issue_at "q_keywords" (z.optional (z.string_ (z.max_length 500)) (input !! "q_keywords"))
  ++ z.issue_at "page" (z.with_default (z.int_between 1 100) 1 (input !! "page"))
  ++ z.issue_at "per_page" (z.with_default (z.int_between 1 100) 25 (input !! "per_page")).

(** The issues the object part of [enrichPersonInputSchema] reports when a
    key is rejected. *)
Definition enrich_issues (fmt : z.formats) (input : jsobject) : list ZodIssue :=
  z.issue_at "email" (z.optional (z.string_ (z.is_email fmt)) (input !! "email"))
  ++ z.issue_at "linkedin_url" (z.optional (z.string_ (z.is_url fmt)) (input !! "linkedin_url"))
  ++ z.issue_at "first_name" (z.optional (z.string_ (z.max_length 100)) (input !! "first_name"))
  ++ z.issue_at "last_name" (z.optional (z.string_ (z.max_length 100)) (input !! "last_name"))
  ++ z.issue_at "name" (z.optional (z.string_ (z.max_length 200)) (input !! "name"))
  ++ z.issue_at "organization_name"
       (z.optional (z.string_ (z.max_length 200)) (input !! "organization_name"))
  ++ z.issue_at "domain" (z.optional (z.string_ (z.max_length 200)) (input !! "domain"))
  ++ z.issue_at "reveal_personal_emails"
       (z.with_default z.boolean false (input !! "reveal_personal_emails"))
  ++ z.issue_at "reveal_phone_number"
       (z.with_default z.boolean false (input !! "reveal_phone_number"))
  ++ z.issue_at "run_waterfall_email" (z.optional z.boolean (input !! "run_waterfall_email"))
  ++ z.issue_at "run_waterfall_phone" (z.optional z.boolean (input !! "run_waterfall_phone"))
  ++ z.issue_at "webhook_url" (z.optional (z.string_ (z.is_url fmt)) (input !! "webhook_url")).

(** The argument object [executeEnrichPerson] passes to
    [client.enrichPerson] for a validated input. *)
Definition enrichPerson_params (validatedInput : EnrichPersonInput.t)
    (serverWebhookUrl : option string) : ApolloEnrichmentRequest :=
  let isAsync :=
    truthy_flag (EnrichPersonInput.run_waterfall_email validatedInput)
    || truthy_flag (EnrichPersonInput.run_waterfall_phone validatedInput) in
  ApolloEnrichmentRequest.mk
    (EnrichPersonInput.email validatedInput)
    (EnrichPersonInput.linkedin_url validatedInput)
    (EnrichPersonInput.first_name validatedInput)
    (EnrichPersonInput.last_name validatedInput)
    (EnrichPersonInput.name validatedInput)
    (EnrichPersonInput.organization_name validatedInput)
    (EnrichPersonInput.domain validatedInput)
    (Some (EnrichPersonInput.reveal_personal_emails validatedInput))
    (Some (EnrichPersonInput.reveal_phone_number validatedInput))
    (EnrichPersonInput.run_waterfall_email validatedInput)
    (EnrichPersonInput.run_waterfall_phone validatedInput)
    (Js.or_opt Js.truthy_string (EnrichPersonInput.webhook_url validatedInput)
       (if isAsync then serverWebhookUrl else None)).

(** The keys the two request bodies can carry. *)
Definition search_body_keys : list string :=
  ["page"; "per_page"; "person_titles"; "person_locations"; "q_keywords"].

Definition enrich_body_keys : list string :=
  ["email"; "linkedin_url"; "first_name"; "last_name"; "name"; "organization_name";
   "domain"; "reveal_personal_emails"; "reveal_phone_number"; "run_waterfall_email";
   "run_waterfall_phone"; "webhook_url"].

(** The body forwards a string key of the tool input: the key is in the
    body exactly when the input binds it to a non-empty string, with that
    string as its value. *)
Definition forwards_string (body input : jsobject) (key : string) : Prop :=
  ∀ v, body !! key = Some v ↔ ∃ s, v = JStr s ∧ input !! key = Some (JStr s) ∧ s ≠ "".

(** The body forwards a flag of the tool input: the key is in the body
    exactly when the input binds it to [true], and its value is [true]. *)
Definition forwards_flag (body input : jsobject) (key : string) : Prop :=
  ∀ v, body !! key = Some v ↔ v = JBool true ∧ input !! key = Some (JBool true).

(** ** The two person shapes side by side *)

(** The search-shaped record with the fields an enrichment-result person
    shares with a search-result person. *)
Definition as_search_person (person : ApolloEnrichedPerson) : ApolloPersonSearch :=
  {| ApolloPersonSearch.id := ApolloEnrichedPerson.id person;
     ApolloPersonSearch.first_name := ApolloEnrichedPerson.first_name person;
     ApolloPersonSearch.last_name := ApolloEnrichedPerson.last_name person;
     ApolloPersonSearch.name := ApolloEnrichedPerson.name person;
     ApolloPersonSearch.title := ApolloEnrichedPerson.title person;
     ApolloPersonSearch.headline := ApolloEnrichedPerson.headline person;
     ApolloPersonSearch.linkedin_url := ApolloEnrichedPerson.linkedin_url person;
     ApolloPersonSearch.email_status := ApolloEnrichedPerson.email_status person;
     ApolloPersonSearch.photo_url := ApolloEnrichedPerson.photo_url person;
     ApolloPersonSearch.twitter_url := ApolloEnrichedPerson.twitter_url person;
     ApolloPersonSearch.github_url := ApolloEnrichedPerson.github_url person;
     ApolloPersonSearch.facebook_url := ApolloEnrichedPerson.facebook_url person;
     ApolloPersonSearch.state := ApolloEnrichedPerson.state person;
     ApolloPersonSearch.city := ApolloEnrichedPerson.city person;
     ApolloPersonSearch.country := ApolloEnrichedPerson.country person;
     ApolloPersonSearch.organization_id := ApolloEnrichedPerson.organization_id person;
     ApolloPersonSearch.organization := ApolloEnrichedPerson.organization person;
     ApolloPersonSearch.employment_history :=
       ApolloEnrichedPerson.employment_history person |}.

(** A canonical person with its contact data blanked. *)
Definition without_contact_data (person : NormalizedPerson) : NormalizedPerson :=
  {| NormalizedPerson.apollo_id := NormalizedPerson.apollo_id person;
     NormalizedPerson.name := NormalizedPerson.name person;
     NormalizedPerson.first_name := NormalizedPerson.first_name person;
     NormalizedPerson.last_name := NormalizedPerson.last_name person;
     NormalizedPerson.title := NormalizedPerson.title person;
     NormalizedPerson.headline := NormalizedPerson.headline person;
     NormalizedPerson.linkedin_url := NormalizedPerson.linkedin_url person;
     NormalizedPerson.email := None;
     NormalizedPerson.email_status := NormalizedPerson.email_status person;
     NormalizedPerson.personal_emails := [];
     NormalizedPerson.phone_numbers := [];
     NormalizedPerson.location := NormalizedPerson.location person;
     NormalizedPerson.company := NormalizedPerson.company person;
     NormalizedPerson.social := NormalizedPerson.social person |}.

(** No text field of the company block is the empty string and its
    employee count is not zero. *)
Definition company_clean (company : Company.t) : Prop :=
  Company.name company ≠ Some ""
  ∧ Company.domain company ≠ Some ""
  ∧ Company.website company ≠ Some ""
  ∧ Company.linkedin_url company ≠ Some ""
  ∧ Company.industry company ≠ Some ""
  ∧ Company.employee_count company ≠ Some 0%Z.

(** The company block projected from an organization object: empty texts
    and a zero head count become null. *)
Definition company_from (organization_id : option string) (organization : ApolloOrganization)
    : Company.t :=
  Company.mk
    organization_id
    (present (ApolloOrganization.name organization))
    (present (ApolloOrganization.primary_domain organization))
    (present (ApolloOrganization.website_url organization))
    (present (ApolloOrganization.linkedin_url organization))
    (present (ApolloOrganization.industry organization))
    (match ApolloOrganization.estimated_num_employees organization with
     | Some n => if decide (n = 0%Z) then None else Some n
     | None => None
     end).

(** ** More sample traffic *)

(** A network that is down, a provider whose answer is not JSON, and a
    provider that answers an enrichment with nothing but an empty status. *)
Definition fetch_down {B} (url : string) (init : RequestInit.t) : outcome (Response.t B) :=
  inl (FetchFailed "connect ECONNREFUSED").

Definition fetch_not_json {B} (url : string) (init : RequestInit.t)
    : outcome (Response.t B) :=
  inr (Response.mk true 200 "OK" (inr "<html>")
         (inl (Error "Unexpected token < in JSON"))).

Definition fetch_blank_enrichment (url : string) (init : RequestInit.t)
    : outcome (Response.t RawEnrichBody.t) :=
  inr (ok_response (RawEnrichBody.mk None (Some "") None None None)).

Definition ceo_search_validated : SearchPeopleInput.t :=
  SearchPeopleInput.mk ["CEO"] None None 3 10.

Definition waterfall_input_with_webhook : jsobject :=
  {[ "email" := JStr "a@b.com"; "run_waterfall_phone" := JBool true;
     "webhook_url" := JStr "https://caller.example.com/hook" ]}.

Definition acme_organization : ApolloOrganization :=
  {| ApolloOrganization.id := "5e66b6";
     ApolloOrganization.name := Some "Acme";
     ApolloOrganization.website_url := Some "";
     ApolloOrganization.linkedin_url := None;
     ApolloOrganization.primary_domain := Some "acme.example";
     ApolloOrganization.logo_url := None;
     ApolloOrganization.industry := Some "";
     ApolloOrganization.estimated_num_employees := Some 0%Z |}.

Definition jane_at_acme : ApolloPersonSearch :=
  {| ApolloPersonSearch.id := "64a7f1";
     ApolloPersonSearch.first_name := Some "Jane";
     ApolloPersonSearch.last_name := Some "Doe";
     ApolloPersonSearch.name := Some "Jane Doe";
     ApolloPersonSearch.title := Some "CTO";
     ApolloPersonSearch.headline := None;
     ApolloPersonSearch.linkedin_url := None;
     ApolloPersonSearch.email_status := None;
     ApolloPersonSearch.photo_url := None;
     ApolloPersonSearch.twitter_url := None;
     ApolloPersonSearch.github_url := None;
     ApolloPersonSearch.facebook_url := None;
     ApolloPersonSearch.state := None;
     ApolloPersonSearch.city := None;
     ApolloPersonSearch.country := None;
     ApolloPersonSearch.organization_id := Some "5e66b6";
     ApolloPersonSearch.organization := Some acme_organization;
     ApolloPersonSearch.employment_history := None |}.

(** A person whose single sanitized phone is repeated in the phone list. *)
Definition repeated_phone_person : ApolloEnrichedPerson :=
  {| ApolloEnrichedPerson.id := "64a7f1";
     ApolloEnrichedPerson.first_name := None;
     ApolloEnrichedPerson.last_name := None;
     ApolloEnrichedPerson.name := None;
     ApolloEnrichedPerson.title := None;
     ApolloEnrichedPerson.headline := None;
     ApolloEnrichedPerson.linkedin_url := None;
     ApolloEnrichedPerson.email := Some "x@y.com";
     ApolloEnrichedPerson.email_status := None;
     ApolloEnrichedPerson.personal_emails := None;
     ApolloEnrichedPerson.phone_numbers :=
       Some [phone_entry (Some "+1-555"); phone_entry (Some "+1-999")];
     ApolloEnrichedPerson.sanitized_phone := Some "+1-555";
     ApolloEnrichedPerson.organization_id := None;
     ApolloEnrichedPerson.organization := None;
     ApolloEnrichedPerson.photo_url := None;
     ApolloEnrichedPerson.twitter_url := None;
     ApolloEnrichedPerson.github_url := None;
     ApolloEnrichedPerson.facebook_url := None;
     ApolloEnrichedPerson.state := None;
     ApolloEnrichedPerson.city := None;
     ApolloEnrichedPerson.country := None;
     ApolloEnrichedPerson.employment_history := None |}.

(** * Properties *)

(** ** Truthiness facts *)

Lemma truthy_string_spec (s : string) : Js.truthy_string s = true ↔ s ≠ "".
Proof.
  unfold Js.truthy_string. rewrite negb_true_iff.
  destruct (String.eqb_spec s ""); split; congruence.
Qed.

Lemma truthy_string_empty : Js.truthy_string "" = false.
Proof. reflexivity. Qed.

Lemma truthy_number_spec (n : Z) : Js.truthy_number n = true ↔ n ≠ 0%Z.
Proof.
  unfold Js.truthy_number. rewrite negb_true_iff.
  destruct (Z.eqb_spec n 0); split; congruence.
Qed.

Lemma includes_spec (l : list string) (s : string) :
  Js.includes l s = true ↔ s ∈ l.
Proof.
  unfold Js.includes. rewrite existsb_exists. split.
  - intros (x & Hx & Heq). apply String.eqb_eq in Heq. subst x.
    by apply list_elem_of_In.
  - intros Hin. exists s. split; [by apply list_elem_of_In | apply String.eqb_refl].
Qed.

Lemma includes_bool_decide (l : list string) (s : string) :
  Js.includes l s = bool_decide (s ∈ l).
Proof.
  apply eq_true_iff_eq. rewrite includes_spec. by rewrite bool_decide_eq_true.
Qed.

(** ** Normalizer *)

Section Normalizer.

Lemma present_Some (o : option string) (s : string) :
  present o = Some s ↔ o = Some s ∧ s ≠ "".
Proof.
  unfold present, Js.or_null, Js.or_opt, Js.truthy_opt.
  destruct o as [x|]; [|naive_solver].
  destruct (Js.truthy_string x) eqn:E.
  - apply truthy_string_spec in E. naive_solver.
  - split; [done|]. intros [[= ->] Hs]. apply truthy_string_spec in Hs. congruence.
Qed.

Lemma push_phone_present (acc : list string) (phone : ApolloPhoneNumber) :
  ApolloClient.push_phone acc phone =
    match present (ApolloPhoneNumber.sanitized_number phone) with
    | Some s => append_if_new acc s
    | None => acc
    end.
Proof.
  unfold ApolloClient.push_phone, present, Js.or_null, Js.or_opt, Js.truthy_opt.
  destruct (ApolloPhoneNumber.sanitized_number phone) as [s|]; [|done].
  destruct (Js.truthy_string s); [|done]. simpl.
  unfold append_if_new, Js.push. rewrite includes_bool_decide.
  by destruct (bool_decide (s ∈ acc)).
Qed.

Lemma fold_push_phone (phones : list ApolloPhoneNumber) (acc : list string) :
  fold_left ApolloClient.push_phone phones acc =
  fold_left append_if_new (present_numbers phones) acc.
Proof.
  revert acc. induction phones as [|phone phones IH]; intros acc; [done|].
  simpl. rewrite IH, push_phone_present. unfold present_numbers. simpl.
  by destruct (present (ApolloPhoneNumber.sanitized_number phone)).
Qed.

Lemma collect_phoneNumbers_spec (person : ApolloEnrichedPerson) :
  ApolloClient.collect_phoneNumbers person =
  spec_phone_numbers
    (present (ApolloEnrichedPerson.sanitized_phone person))
    (present_numbers (default [] (ApolloEnrichedPerson.phone_numbers person))).
Proof.
  unfold ApolloClient.collect_phoneNumbers, spec_phone_numbers.
  assert (Hinit :
    match ApolloEnrichedPerson.sanitized_phone person with
    | Some s => if Js.truthy_string s then Js.push [] s else []
    | None => []
    end = option_list (present (ApolloEnrichedPerson.sanitized_phone person))).
  { unfold present, Js.or_null, Js.or_opt, Js.truthy_opt.
    destruct (ApolloEnrichedPerson.sanitized_phone person) as [s|]; [|done].
    by destruct (Js.truthy_string s). }
  rewrite Hinit.
  destruct (ApolloEnrichedPerson.phone_numbers person) as [phones|]; simpl.
  - apply fold_push_phone.
  - done.
Qed.

Lemma append_if_new_NoDup (acc : list string) (s : string) :
  NoDup acc → NoDup (append_if_new acc s).
Proof.
  intros Hnd. unfold append_if_new. case_bool_decide as Hin; [done|].
  apply NoDup_app. split_and!; [done | | apply NoDup_singleton].
  intros x Hx ->%list_elem_of_singleton. done.
Qed.

Lemma fold_append_if_new_NoDup (l acc : list string) :
  NoDup acc → NoDup (fold_left append_if_new l acc).
Proof.
  revert acc. induction l as [|s l IH]; intros acc Hnd; [done|].
  simpl. by apply IH, append_if_new_NoDup.
Qed.

Lemma fold_append_if_new_elem (l acc : list string) (x : string) :
  x ∈ fold_left append_if_new l acc ↔ x ∈ acc ∨ x ∈ l.
Proof.
  revert acc. induction l as [|s l IH]; intros acc; simpl.
  - set_solver.
  - rewrite IH. unfold append_if_new. case_bool_decide; set_solver.
Qed.

Lemma spec_phone_numbers_NoDup (o : option string) (l : list string) :
  NoDup (spec_phone_numbers o l).
Proof.
  apply fold_append_if_new_NoDup. destruct o; simpl; [apply NoDup_singleton | constructor].
Qed.

Lemma present_numbers_nonempty (phones : list ApolloPhoneNumber) :
  "" ∉ present_numbers phones.
Proof.
  unfold present_numbers. rewrite list_elem_of_omap.
  intros (phone & _ & H). apply present_Some in H. naive_solver.
Qed.

End Normalizer.

(** *** Search-result persons carry no contact data *)

(** C3. Whatever the search-result person holds, its canonical form has
    [email = null], [personal_emails = []] and [phone_numbers = []]; the
    same is then true of every person of a normalized result page. *)
Theorem normalizeSearchPerson_no_contact_data (person : ApolloPersonSearch)
    (page : list ApolloPersonSearch) :
  let canonical := ApolloClient.normalizeSearchPerson person in
  NormalizedPerson.email canonical = None
  ∧ NormalizedPerson.personal_emails canonical = []
  ∧ NormalizedPerson.phone_numbers canonical = []
  ∧ Forall (fun p => NormalizedPerson.email p = None
                     ∧ NormalizedPerson.personal_emails p = []
                     ∧ NormalizedPerson.phone_numbers p = [])
      (ApolloClient.normalizeSearchPerson <$> page).
Proof.
  simpl. split_and!; try reflexivity.
  apply Forall_fmap, Forall_forall. intros p _. by split_and!.
Qed.

(** *** Company and social blocks *)

(** C9, as stated, fails on the [id] field of the company block: it is
    copied from the person's own [organization_id], so it is not null for
    a person that names an organization without embedding it. *)
Lemma company_id_survives_missing_organization :
  ApolloPersonSearch.organization jane_search = None
  ∧ ApolloEnrichedPerson.organization jane_enriched = None
  ∧ Company.id (NormalizedPerson.company (ApolloClient.normalizeSearchPerson jane_search))
      = Some "5e66b6"
  ∧ Company.id (NormalizedPerson.company (ApolloClient.normalizeEnrichedPerson jane_enriched))
      = Some "5e66b6".
Proof. by split_and!. Qed.

(** C9 (amended). Both normalizers always build the company and social
    blocks: social is the projection of the person's three links, and when
    the nested organization object is missing every company field
    projected from it (name, domain, website, linkedin_url, industry,
    employee_count) is null, while [company.id] is the person's own
    [organization_id]. *)
Theorem company_without_organization :
  (∀ person : ApolloPersonSearch,
     let canonical := ApolloClient.normalizeSearchPerson person in
     NormalizedPerson.social canonical
       = Social.mk (ApolloPersonSearch.twitter_url person)
                   (ApolloPersonSearch.github_url person)
                   (ApolloPersonSearch.facebook_url person)
     ∧ (ApolloPersonSearch.organization person = None →
        NormalizedPerson.company canonical
          = Company.mk (ApolloPersonSearch.organization_id person)
                       None None None None None None))
  ∧ (∀ person : ApolloEnrichedPerson,
     let canonical := ApolloClient.normalizeEnrichedPerson person in
     NormalizedPerson.social canonical
       = Social.mk (ApolloEnrichedPerson.twitter_url person)
                   (ApolloEnrichedPerson.github_url person)
                   (ApolloEnrichedPerson.facebook_url person)
     ∧ (ApolloEnrichedPerson.organization person = None →
        NormalizedPerson.company canonical
          = Company.mk (ApolloEnrichedPerson.organization_id person)
                       None None None None None None)).
Proof.
  split; intros person; simpl; (split; [reflexivity|]); intros Horg;
    unfold ApolloClient.company_of; by rewrite Horg.
Qed.

Lemma company_without_organization_witness :
  NormalizedPerson.company (ApolloClient.normalizeSearchPerson jane_search)
    = Company.mk (Some "5e66b6") None None None None None None
  ∧ NormalizedPerson.company (ApolloClient.normalizeEnrichedPerson jane_enriched)
    = Company.mk (Some "5e66b6") None None None None None None.
Proof.
  destruct company_without_organization as [Hsearch Henriched]. split.
  - apply (Hsearch jane_search). reflexivity.
  - apply (Henriched jane_enriched). reflexivity.
Defined.

(** *** Phone-number assembly *)

Lemma fold_append_if_new_sublist (l acc : list string) :
  ∃ added, fold_left append_if_new l acc = acc ++ added ∧ added `sublist_of` l.
Proof.
  revert acc. induction l as [|s l IH]; intros acc; simpl.
  - exists []. by rewrite app_nil_r.
  - destruct (IH (append_if_new acc s)) as (added & -> & Hsub).
    unfold append_if_new. case_bool_decide.
    + exists added. split; [done | by apply sublist_cons].
    + exists (s :: added). split; [by rewrite <- app_assoc | by apply sublist_skip].
Qed.

Lemma present_numbers_cons (phone : ApolloPhoneNumber) (phones : list ApolloPhoneNumber) :
  present_numbers (phone :: phones) =
    match present (ApolloPhoneNumber.sanitized_number phone) with
    | Some s => s :: present_numbers phones
    | None => present_numbers phones
    end.
Proof. reflexivity. Qed.

Lemma present_numbers_values (phones : list ApolloPhoneNumber) :
  present_numbers phones = omap present (ApolloPhoneNumber.sanitized_number <$> phones).
Proof.
  induction phones as [|phone phones IH]; [done|].
  rewrite present_numbers_cons, IH, fmap_cons. reflexivity.
Qed.

Lemma has_sanitized_number_spec (phone : ApolloPhoneNumber) :
  ¬ has_sanitized_number phone ↔
  ApolloPhoneNumber.sanitized_number phone = None
  ∨ ApolloPhoneNumber.sanitized_number phone = Some "".
Proof.
  unfold has_sanitized_number, Js.truthy_opt.
  destruct (ApolloPhoneNumber.sanitized_number phone) as [s|]; [|naive_solver].
  rewrite truthy_string_spec. destruct (decide (s = "")); naive_solver.
Qed.

Lemma present_is_Some (o : option string) :
  is_Some (present o) ↔ Js.truthy_opt Js.truthy_string o = true.
Proof.
  unfold present, Js.or_null, Js.or_opt.
  destruct (Js.truthy_opt Js.truthy_string o) eqn:E.
  - destruct o; [|done]. split; [done | by eexists].
  - split; [by intros [? [=]] | done].
Qed.

Lemma present_numbers_filter (phones : list ApolloPhoneNumber) :
  present_numbers (filter has_sanitized_number phones) = present_numbers phones.
Proof.
  induction phones as [|phone phones IH]; [done|].
  rewrite filter_cons. case_decide as Hp.
  - by rewrite !present_numbers_cons, IH.
  - rewrite present_numbers_cons, IH.
    destruct (present (ApolloPhoneNumber.sanitized_number phone)) as [s|] eqn:E; [|done].
    exfalso. apply Hp. apply present_is_Some. by eexists.
Qed.

(** C2, as stated, fails on an empty sanitized number: the entry is not in
    the list yet, the specification appends it, the code skips it. *)
Lemma empty_sanitized_number_not_appended :
  let person := with_phone_numbers jane_enriched (Some [phone_entry (Some "")]) in
  spec_phone_numbers_of person = [""]
  ∧ NormalizedPerson.phone_numbers (ApolloClient.normalizeEnrichedPerson person) = [].
Proof. by split. Qed.

(** C2 (amended). The normalized [phone_numbers] list starts with the
    provider's single [sanitized_phone] when it is present and non-empty,
    and then receives, in list order, each entry's [sanitized_number] that
    is present, non-empty and not in the list yet.  So the result has no
    duplicates, keeps the order of first appearance, and distinct non-empty
    sanitized values [A, B, A, C] give [A, B, C]. *)
Theorem normalizeEnrichedPerson_phone_numbers (person : ApolloEnrichedPerson) :
  let result := NormalizedPerson.phone_numbers (ApolloClient.normalizeEnrichedPerson person) in
  let first := present (ApolloEnrichedPerson.sanitized_phone person) in
  let rest := present_numbers (default [] (ApolloEnrichedPerson.phone_numbers person)) in
  result = spec_phone_numbers first rest
  ∧ NoDup result
  ∧ (∀ s, s ∈ result ↔ first = Some s ∨ s ∈ rest)
  ∧ (∃ added, result = option_list first ++ added ∧ added `sublist_of` rest)
  ∧ (∀ phones A B C,
       A ≠ "" → B ≠ "" → C ≠ "" → A ≠ B → A ≠ C → B ≠ C →
       ApolloEnrichedPerson.sanitized_phone person = None →
       ApolloEnrichedPerson.phone_numbers person = Some phones →
       ApolloPhoneNumber.sanitized_number <$> phones = [Some A; Some B; Some A; Some C] →
       result = [A; B; C]).
Proof.
  simpl. rewrite collect_phoneNumbers_spec. split_and!.
  - done.
  - apply spec_phone_numbers_NoDup.
  - intros s. unfold spec_phone_numbers. rewrite fold_append_if_new_elem.
    destruct (present (ApolloEnrichedPerson.sanitized_phone person)); simpl; set_solver.
  - apply fold_append_if_new_sublist.
  - intros phones A B C HA HB HC HAB HAC HBC Hphone Hphones Hvalues.
    rewrite Hphone, Hphones. simpl.
    assert (present_numbers phones = [A; B; A; C]) as ->.
    { rewrite present_numbers_values, Hvalues.
      assert (∀ s, s ≠ "" → present (Some s) = Some s) as Hpresent
        by (intros s Hs; by apply present_Some).
      cbn [omap list_omap]. by rewrite !Hpresent. }
    unfold spec_phone_numbers, append_if_new. simpl.
    repeat (case_bool_decide; simpl); set_solver.
Qed.

Lemma normalizeEnrichedPerson_phone_numbers_witness :
  NormalizedPerson.phone_numbers
    (ApolloClient.normalizeEnrichedPerson
       (with_phone_numbers jane_enriched
          (Some [phone_entry (Some "+1-555"); phone_entry (Some "+1-999");
                 phone_entry (Some "+1-555"); phone_entry (Some "+1-777")])))
  = ["+1-555"; "+1-999"; "+1-777"].
Proof.
  destruct (normalizeEnrichedPerson_phone_numbers
              (with_phone_numbers jane_enriched
                 (Some [phone_entry (Some "+1-555"); phone_entry (Some "+1-999");
                        phone_entry (Some "+1-555"); phone_entry (Some "+1-777")])))
    as (_ & _ & _ & _ & Hexample).
  eapply Hexample; (reflexivity || discriminate).
Defined.

(** C10. No entry whose [sanitized_number] is absent or empty reaches the
    normalized list: the loop iteration for such an entry leaves the list
    as it is, normalizing gives the same phone numbers as normalizing with
    those entries removed, and [""] is never a member.  A null
    [personal_emails] normalizes to the empty list. *)
Theorem normalizeEnrichedPerson_drops_empty (person : ApolloEnrichedPerson) :
  let result := NormalizedPerson.phone_numbers (ApolloClient.normalizeEnrichedPerson person) in
  ("" ∉ result)
  ∧ (∀ phoneNumbers phone,
       ApolloPhoneNumber.sanitized_number phone = None
       ∨ ApolloPhoneNumber.sanitized_number phone = Some "" →
       ApolloClient.push_phone phoneNumbers phone = phoneNumbers)
  ∧ (∀ phones,
       ApolloEnrichedPerson.phone_numbers person = Some phones →
       result =
       NormalizedPerson.phone_numbers
         (ApolloClient.normalizeEnrichedPerson
            (with_phone_numbers person
               (Some (filter has_sanitized_number phones)))))
  ∧ (ApolloEnrichedPerson.personal_emails person = None →
     NormalizedPerson.personal_emails (ApolloClient.normalizeEnrichedPerson person) = []).
Proof.
  simpl. split_and!.
  - rewrite collect_phoneNumbers_spec. unfold spec_phone_numbers.
    rewrite fold_append_if_new_elem. intros [Hfirst | Hrest].
    + destruct (present (ApolloEnrichedPerson.sanitized_phone person)) as [s|] eqn:E;
        simpl in Hfirst; [|by apply elem_of_nil in Hfirst].
      apply list_elem_of_singleton in Hfirst. subst s.
      apply present_Some in E. naive_solver.
    + by apply present_numbers_nonempty in Hrest.
  - intros phoneNumbers phone Hphone. rewrite push_phone_present.
    destruct (present (ApolloPhoneNumber.sanitized_number phone)) as [s|] eqn:E; [|done].
    apply present_Some in E. naive_solver.
  - intros phones Hphones. rewrite !collect_phoneNumbers_spec, Hphones. simpl.
    by rewrite present_numbers_filter.
  - by intros ->.
Qed.

Lemma normalizeEnrichedPerson_drops_empty_witness :
  NormalizedPerson.phone_numbers
    (ApolloClient.normalizeEnrichedPerson
       (with_phone_numbers jane_enriched
          (Some [phone_entry None; phone_entry (Some "+1-555"); phone_entry (Some "")])))
  = NormalizedPerson.phone_numbers
      (ApolloClient.normalizeEnrichedPerson
         (with_phone_numbers jane_enriched (Some [phone_entry (Some "+1-555")])))
  ∧ NormalizedPerson.personal_emails (ApolloClient.normalizeEnrichedPerson jane_enriched) = [].
Proof.
  split.
  - destruct (normalizeEnrichedPerson_drops_empty
                (with_phone_numbers jane_enriched
                   (Some [phone_entry None; phone_entry (Some "+1-555");
                          phone_entry (Some "")])))
      as (_ & _ & Hfiltered & _).
    exact (Hfiltered _ eq_refl).
  - destruct (normalizeEnrichedPerson_drops_empty jane_enriched) as (_ & _ & _ & Hemails).
    apply Hemails. reflexivity.
Defined.

(** ** Provider client *)

(** *** Errors of [makeRequest] *)

(** C6. On a non-2xx response the error thrown by [makeRequest] is the
    text ["Apollo API error: <status> <statusText>"] and nothing else: two
    calls made with different API keys and different request bodies that
    receive the same status code and status text fail with the same error,
    so neither the key nor the body can be read off the error. *)
Theorem makeRequest_error_hides_key_and_body {B}
    (fetch : string → RequestInit.t → outcome (Response.t B))
    (client1 client2 : ApolloClient.t) (url : string) (body1 body2 : jsobject)
    (response1 response2 : Response.t B) :
  fetch url (ApolloClient.request_init client1 body1) = inr response1 →
  fetch url (ApolloClient.request_init client2 body2) = inr response2 →
  Response.ok response1 = false →
  Response.ok response2 = false →
  Response.status response1 = Response.status response2 →
  Response.statusText response1 = Response.statusText response2 →
  ApolloClient.makeRequest fetch client1 url body1
    = inl (Error ("Apollo API error: " +:+ pretty (Response.status response1)
                    +:+ " " +:+ Response.statusText response1))
  ∧ ApolloClient.makeRequest fetch client1 url body1
    = ApolloClient.makeRequest fetch client2 url body2.
Proof.
  intros Hfetch1 Hfetch2 Hok1 Hok2 Hstatus Htext.
  unfold ApolloClient.makeRequest, bind, throw.
  rewrite Hfetch1, Hfetch2, Hok1, Hok2. simpl.
  by rewrite Hstatus, Htext.
Qed.

Lemma makeRequest_error_hides_key_and_body_witness :
  ApolloClient.makeRequest (B := RawEnrichBody.t) fetch_unauthorized
    (ApolloClient.mk "key-one") ENRICHMENT_ENDPOINT {["email" := JStr "a@b.com"]}
  = inl (Error "Apollo API error: 401 Unauthorized")
  ∧ ApolloClient.makeRequest (B := RawEnrichBody.t) fetch_unauthorized
      (ApolloClient.mk "key-one") ENRICHMENT_ENDPOINT {["email" := JStr "a@b.com"]}
    = ApolloClient.makeRequest fetch_unauthorized
        (ApolloClient.mk "key-two") ENRICHMENT_ENDPOINT {["name" := JStr "Jane Doe"]}.
Proof.
  exact (makeRequest_error_hides_key_and_body fetch_unauthorized
           (ApolloClient.mk "key-one") (ApolloClient.mk "key-two")
           ENRICHMENT_ENDPOINT {["email" := JStr "a@b.com"]} {["name" := JStr "Jane Doe"]}
           unauthorized unauthorized
           eq_refl eq_refl eq_refl eq_refl eq_refl eq_refl).
Defined.

(** *** The enrichment request body *)

Lemma lookup_set_string_eq (k : string) (o : option string) (body : jsobject) :
  set_string k o body !! k =
    match present o with
    | Some s => Some (JStr s)
    | None => body !! k
    end.
Proof.
  unfold set_string, present, Js.or_null, Js.or_opt, Js.truthy_opt.
  destruct o as [s|]; [|done].
  destruct (Js.truthy_string s); [apply lookup_insert_eq | done].
Qed.

Lemma lookup_set_string_ne (k k' : string) (o : option string) (body : jsobject) :
  k ≠ k' → set_string k o body !! k' = body !! k'.
Proof.
  intros Hne. unfold set_string. destruct o as [s|]; [|done].
  destruct (Js.truthy_string s); [by apply lookup_insert_ne | done].
Qed.

Lemma lookup_set_true_eq (k : string) (o : option bool) (body : jsobject) :
  set_true k o body !! k =
    if Js.truthy_opt (fun b : bool => b) o then Some (JBool true) else body !! k.
Proof.
  unfold set_true.
  destruct (Js.truthy_opt (fun b : bool => b) o); [apply lookup_insert_eq | done].
Qed.

Lemma lookup_set_true_ne (k k' : string) (o : option bool) (body : jsobject) :
  k ≠ k' → set_true k o body !! k' = body !! k'.
Proof.
  intros Hne. unfold set_true.
  destruct (Js.truthy_opt (fun b : bool => b) o); [by apply lookup_insert_ne | done].
Qed.

Lemma never_false_empty : never_false ∅.
Proof. intros k. by rewrite lookup_empty. Qed.

Lemma never_false_set_string (k : string) (o : option string) (body : jsobject) :
  never_false body → never_false (set_string k o body).
Proof.
  intros Hbody k'. destruct (decide (k = k')) as [->|Hne].
  - rewrite lookup_set_string_eq. destruct (present o); [done | apply Hbody].
  - rewrite lookup_set_string_ne by done. apply Hbody.
Qed.

Lemma never_false_set_true (k : string) (o : option bool) (body : jsobject) :
  never_false body → never_false (set_true k o body).
Proof.
  intros Hbody k'. destruct (decide (k = k')) as [->|Hne].
  - rewrite lookup_set_true_eq.
    destruct (Js.truthy_opt (fun b : bool => b) o); [done | apply Hbody].
  - rewrite lookup_set_true_ne by done. apply Hbody.
Qed.

Lemma truthy_flag_true (o : option bool) :
  Js.truthy_opt (fun b : bool => b) o = true ↔ o = Some true.
Proof. destruct o as [[]|]; naive_solver. Qed.

Ltac lookup_body :=
  unfold ApolloClient.enrichPerson_body; cbv zeta;
  repeat first
    [ rewrite lookup_set_string_eq
    | rewrite lookup_set_true_eq
    | rewrite lookup_set_string_ne by done
    | rewrite lookup_set_true_ne by done
    | rewrite lookup_empty ].

(** C8. In the body [enrichPerson] sends, an identifier key is present only
    when the parameter was supplied (and then carries its value); a reveal
    or waterfall key is present only when the flag is [true] (and then
    carries [true]); a flag that is absent or [false] leaves no key, and no
    key at all is bound to [false]. *)
Theorem enrichPerson_body_only_supplied (params : ApolloEnrichmentRequest) :
  let body := ApolloClient.enrichPerson_body params in
  (∀ key field v, (key, field) ∈ identifier_keys →
     body !! key = Some v → ∃ s, field params = Some s ∧ v = JStr s)
  ∧ (∀ key flag v, (key, flag) ∈ flag_keys →
     body !! key = Some v → flag params = Some true ∧ v = JBool true)
  ∧ (∀ key flag, (key, flag) ∈ flag_keys →
     flag params = None ∨ flag params = Some false → body !! key = None)
  ∧ (∀ key, body !! key ≠ Some (JBool false)).
Proof.
  simpl.
  assert (Hid : ∀ key field, (key, field) ∈ identifier_keys →
            ApolloClient.enrichPerson_body params !! key
            = JStr <$> present (field params)).
  { intros key field Hin. unfold identifier_keys in Hin.
    repeat (apply elem_of_cons in Hin as [[= -> ->] | Hin]);
      [| | | | | | | by apply elem_of_nil in Hin];
      lookup_body; by destruct (present _). }
  assert (Hflag : ∀ key flag, (key, flag) ∈ flag_keys →
            ApolloClient.enrichPerson_body params !! key
            = if Js.truthy_opt (fun b : bool => b) (flag params)
              then Some (JBool true) else None).
  { intros key flag Hin. unfold flag_keys in Hin.
    repeat (apply elem_of_cons in Hin as [[= -> ->] | Hin]);
      [| | | | by apply elem_of_nil in Hin];
      lookup_body; by destruct (Js.truthy_opt _ _). }
  split_and!.
  - intros key field v Hin. rewrite (Hid _ _ Hin).
    destruct (present (field params)) as [s|] eqn:E; [|done].
    intros [= <-]. exists s. apply present_Some in E. naive_solver.
  - intros key flag v Hin. rewrite (Hflag _ _ Hin).
    destruct (Js.truthy_opt _ _) eqn:E; [|done].
    intros [= <-]. by apply truthy_flag_true in E.
  - intros key flag Hin Hoff. rewrite (Hflag _ _ Hin).
    destruct (Js.truthy_opt _ _) eqn:E; [|done].
    apply truthy_flag_true in E. naive_solver.
  - unfold ApolloClient.enrichPerson_body. cbv zeta.
    repeat first [apply never_false_set_string | apply never_false_set_true].
    apply never_false_empty.
Qed.

Lemma enrichPerson_body_only_supplied_witness :
  ApolloClient.enrichPerson_body email_only_request !! "reveal_phone_number" = None
  ∧ ApolloClient.enrichPerson_body email_only_request !! "run_waterfall_email" = None.
Proof.
  destruct (enrichPerson_body_only_supplied email_only_request) as (_ & _ & Hoff & _).
  split.
  - apply (Hoff "reveal_phone_number" ApolloEnrichmentRequest.reveal_phone_number).
    + unfold flag_keys. set_solver.
    + right. reflexivity.
  - apply (Hoff "run_waterfall_email" ApolloEnrichmentRequest.run_waterfall_email).
    + unfold flag_keys. set_solver.
    + left. reflexivity.
Defined.

(** *** Pagination of a search *)

Lemma int_between_spec (lo hi : Z) (v : json) (n : Z) :
  z.int_between lo hi v = Some n ↔ v = JNum n ∧ (lo ≤ n ≤ hi)%Z.
Proof.
  unfold z.int_between. destruct v; try naive_solver.
  destruct (Z.leb_spec lo z), (Z.leb_spec z hi); simpl; split;
    try naive_solver; intros [[= ->] ?]; lia.
Qed.

Lemma with_default_int (lo hi d : Z) (v : option json) (n : Z) :
  (lo ≤ d ≤ hi)%Z →
  z.with_default (z.int_between lo hi) d v = Some n →
  (lo ≤ n ≤ hi)%Z ∧ (v = None → n = d) ∧ (∀ m, v = Some (JNum m) → n = m).
Proof.
  intros Hd. unfold z.with_default. destruct v as [j|].
  - intros [-> Hn]%int_between_spec. naive_solver.
  - intros [= <-]. naive_solver.
Qed.

(** What a successful parse of a search input guarantees about the page
    and page size the request carries. *)
Lemma searchPeopleInputSchema_page (input : jsobject) (v : SearchPeopleInput.t) :
  searchPeopleInputSchema input = inr v →
  ((1 ≤ SearchPeopleInput.page v ≤ 100)%Z
   ∧ (input !! "page" = None → SearchPeopleInput.page v = 1%Z)
   ∧ (∀ m, input !! "page" = Some (JNum m) → SearchPeopleInput.page v = m))
  ∧ ((1 ≤ SearchPeopleInput.per_page v ≤ 100)%Z
     ∧ (input !! "per_page" = None → SearchPeopleInput.per_page v = 25%Z)
     ∧ (∀ m, input !! "per_page" = Some (JNum m) → SearchPeopleInput.per_page v = m)).
Proof.
  unfold searchPeopleInputSchema.
  destruct (z.required _ _) as [titles|]; [|done].
  destruct (z.optional _ (input !! "person_locations")) as [locations|]; [|done].
  destruct (z.optional _ (input !! "q_keywords")) as [keywords|]; [|done].
  destruct (z.with_default _ _ (input !! "page")) as [page|] eqn:Hpage; [|done].
  destruct (z.with_default _ _ (input !! "per_page")) as [per_page|] eqn:Hper; [|done].
  intros [= <-]. simpl.
  split; eapply with_default_int; try eassumption; lia.
Qed.

(** [a || b || d] when [b] is a non-zero number. *)
Lemma or_chain_number (a : option Z) (b d : Z) :
  b ≠ 0%Z →
  Js.or_default Js.truthy_number (Js.or_opt Js.truthy_number a (Some b)) d
  = match a with
    | Some n => if decide (n = 0%Z) then b else n
    | None => b
    end.
Proof.
  intros Hb%truthy_number_spec. unfold Js.or_opt, Js.truthy_opt, Js.or_default.
  destruct a as [n|]; [|by rewrite Hb].
  destruct (Js.truthy_number n) eqn:E.
  - rewrite E. apply truthy_number_spec in E. by case_decide.
  - rewrite Hb. case_decide as Hn; [done|]. apply truthy_number_spec in Hn. congruence.
Qed.

(** [a || 0] *)
Lemma or_zero (a : option Z) :
  Js.or_default Js.truthy_number a 0 = default 0%Z a.
Proof.
  unfold Js.or_default. destruct a as [n|]; [|done]. simpl.
  destruct (Js.truthy_number n) eqn:E; [done|].
  unfold Js.truthy_number in E. apply negb_false_iff, Z.eqb_eq in E. done.
Qed.

Example executeSearchPeople_full_page :
  executeSearchPeople fetch_full_page sample_client ceo_search
  = inr (SearchResult.mk [ApolloClient.normalizeSearchPerson jane_search]
           (Pagination.mk 3 10 21 3)).
Proof. vm_compute. reflexivity. Qed.

(** C7, as stated, fails when the provider supplies a zero: the provider's
    pagination block carries [page = 0] and [per_page = 0], yet the output
    shows the request's own page 3 and page size 10. *)
Lemma zero_pagination_not_echoed :
  ∃ out upstream,
    (∀ url init,
       fetch_zero_page url init
       = inr (ok_response (RawSearchBody.mk (Some []) (Some upstream))))
    ∧ RawPagination.page upstream = Some 0%Z
    ∧ RawPagination.per_page upstream = Some 0%Z
    ∧ executeSearchPeople fetch_zero_page sample_client ceo_search = inr out
    ∧ Pagination.page (SearchResult.pagination out) = 3%Z
    ∧ Pagination.per_page (SearchResult.pagination out) = 10%Z.
Proof.
  eexists _, _. split_and!; [intros; reflexivity | reflexivity | reflexivity | |  | ];
    vm_compute; reflexivity.
Qed.

(** C7 (amended). For every valid search input and every answer of the
    provider, the search succeeds, and the output [page] (resp. [per_page])
    is the upstream value when the provider supplies a non-zero one, and
    otherwise - field missing, zero, or no pagination block at all - the
    request's own validated [page] (resp. [per_page]); [total_entries] and
    [total_pages] are the upstream values or zero.  In particular, without
    a pagination block the output is exactly the request's page and page
    size with zero counts. *)
Theorem executeSearchPeople_pagination
    (fetch : string → RequestInit.t → outcome (Response.t RawSearchBody.t))
    (client : ApolloClient.t) (input : jsobject)
    (v : SearchPeopleInput.t) (answer : RawSearchBody.t) :
  searchPeopleInputSchema input = inr v →
  ApolloClient.makeRequest fetch client SEARCH_ENDPOINT
    (ApolloClient.searchPeople_body (searchPeople_params v)) = inr answer →
  ∃ out,
    executeSearchPeople fetch client input = inr out
    ∧ let upstream := RawSearchBody.pagination answer in
      let shown := SearchResult.pagination out in
      Pagination.page shown
        = match Js.chain upstream RawPagination.page with
          | Some n => if decide (n = 0%Z) then SearchPeopleInput.page v else n
          | None => SearchPeopleInput.page v
          end
      ∧ Pagination.per_page shown
        = match Js.chain upstream RawPagination.per_page with
          | Some n => if decide (n = 0%Z) then SearchPeopleInput.per_page v else n
          | None => SearchPeopleInput.per_page v
          end
      ∧ Pagination.total_entries shown
        = default 0%Z (Js.chain upstream RawPagination.total_entries)
      ∧ Pagination.total_pages shown
        = default 0%Z (Js.chain upstream RawPagination.total_pages)
      ∧ (upstream = None →
         shown = Pagination.mk (SearchPeopleInput.page v) (SearchPeopleInput.per_page v) 0 0).
Proof.
  intros Hvalid Hanswer.
  destruct (searchPeopleInputSchema_page _ _ Hvalid) as [(Hpage & _) (Hper & _)].
  unfold executeSearchPeople, ApolloClient.searchPeople.
  rewrite Hvalid. cbn [bind]. rewrite Hanswer. cbn [bind ret].
  eexists. split; [reflexivity|].
  cbn [SearchResult.pagination ApolloSearchResponse.pagination
       Pagination.page Pagination.per_page Pagination.total_entries Pagination.total_pages
       searchPeople_params SearchParams.page SearchParams.per_page].
  rewrite !or_chain_number by lia. rewrite !or_zero.
  split_and!; try reflexivity.
  by intros ->.
Qed.

Lemma executeSearchPeople_pagination_witness :
  ∃ out,
    executeSearchPeople fetch_no_pagination sample_client ceo_search = inr out
    ∧ SearchResult.pagination out = Pagination.mk 3 10 0 0.
Proof.
  destruct (executeSearchPeople_pagination fetch_no_pagination sample_client ceo_search
              (SearchPeopleInput.mk ["CEO"] None None 3 10)
              (RawSearchBody.mk (Some [jane_search]) None))
    as (out & Hout & _ & _ & _ & _ & Hmissing).
  - vm_compute. reflexivity.
  - vm_compute. reflexivity.
  - exists out. split; [exact Hout | apply Hmissing; reflexivity].
Defined.

(** ** Enrichment input validation and executor *)

Section Enrich.

Context (fmt : z.formats).

Lemma optional_string_supplied (check : string → bool) (input : jsobject) (key : string)
    (o : option string) :
  z.optional (z.string_ check) (input !! key) = Some o →
  (truthy_str o = true ↔ supplied input key).
Proof.
  unfold z.optional, z.string_, supplied, truthy_str, Js.truthy_opt.
  destruct (input !! key) as [[| | |s| |]|]; try done.
  - destruct (check s); [|done]. intros [= <-]. rewrite truthy_string_spec. naive_solver.
  - intros [= <-]. naive_solver.
Qed.

Lemma optional_string_absent (check : string → bool) (v : option json) (o : option string) :
  z.optional (z.string_ check) v = Some o → v = None → o = None.
Proof. intros H ->. by injection H. Qed.

Lemma optional_boolean_on (input : jsobject) (key : string) (o : option bool) :
  z.optional z.boolean (input !! key) = Some o →
  (truthy_flag o = true ↔ flag_on input key).
Proof.
  unfold z.optional, z.boolean, flag_on, truthy_flag, Js.truthy_opt.
  destruct (input !! key) as [[|b| | | |]|]; try done.
  - intros [= <-]. destruct b; naive_solver.
  - intros [= <-]. naive_solver.
Qed.

(** How the fields of a parsed input come from the raw object. *)
Lemma enrichPersonInputObject_fields (input : jsobject) (data : EnrichPersonInput.t) :
  enrichPersonInputObject fmt input = inr data →
  z.optional (z.string_ (z.is_email fmt)) (input !! "email")
    = Some (EnrichPersonInput.email data)
  ∧ z.optional (z.string_ (z.is_url fmt)) (input !! "linkedin_url")
    = Some (EnrichPersonInput.linkedin_url data)
  ∧ z.optional (z.string_ (z.max_length 100)) (input !! "first_name")
    = Some (EnrichPersonInput.first_name data)
  ∧ z.optional (z.string_ (z.max_length 100)) (input !! "last_name")
    = Some (EnrichPersonInput.last_name data)
  ∧ z.optional (z.string_ (z.max_length 200)) (input !! "name")
    = Some (EnrichPersonInput.name data)
  ∧ z.optional (z.string_ (z.max_length 200)) (input !! "organization_name")
    = Some (EnrichPersonInput.organization_name data)
  ∧ z.optional (z.string_ (z.max_length 200)) (input !! "domain")
    = Some (EnrichPersonInput.domain data)
  ∧ z.optional z.boolean (input !! "run_waterfall_email")
    = Some (EnrichPersonInput.run_waterfall_email data)
  ∧ z.optional z.boolean (input !! "run_waterfall_phone")
    = Some (EnrichPersonInput.run_waterfall_phone data)
  ∧ z.optional (z.string_ (z.is_url fmt)) (input !! "webhook_url")
    = Some (EnrichPersonInput.webhook_url data).
Proof.
  unfold enrichPersonInputObject.
  destruct (z.optional _ (input !! "email")); [|done].
  destruct (z.optional _ (input !! "linkedin_url")); [|done].
  destruct (z.optional _ (input !! "first_name")); [|done].
  destruct (z.optional _ (input !! "last_name")); [|done].
  destruct (z.optional _ (input !! "name")); [|done].
  destruct (z.optional _ (input !! "organization_name")); [|done].
  destruct (z.optional _ (input !! "domain")); [|done].
  destruct (z.with_default _ _ (input !! "reveal_personal_emails")); [|done].
  destruct (z.with_default _ _ (input !! "reveal_phone_number")); [|done].
  destruct (z.optional _ (input !! "run_waterfall_email")); [|done].
  destruct (z.optional _ (input !! "run_waterfall_phone")); [|done].
  destruct (z.optional _ (input !! "webhook_url")); [|done].
  intros [= <-]. by split_and!.
Qed.

(** The object schema fails with a [ZodError] only. *)
Lemma enrichPersonInputObject_throws (input : jsobject) (e : exn) :
  enrichPersonInputObject fmt input = inl e → ∃ issues, e = ZodError issues.
Proof.
  unfold enrichPersonInputObject, throw.
  destruct (z.optional _ (input !! "email")); [|intros [= <-]; by eexists].
  destruct (z.optional _ (input !! "linkedin_url")); [|intros [= <-]; by eexists].
  destruct (z.optional _ (input !! "first_name")); [|intros [= <-]; by eexists].
  destruct (z.optional _ (input !! "last_name")); [|intros [= <-]; by eexists].
  destruct (z.optional _ (input !! "name")); [|intros [= <-]; by eexists].
  destruct (z.optional _ (input !! "organization_name")); [|intros [= <-]; by eexists].
  destruct (z.optional _ (input !! "domain")); [|intros [= <-]; by eexists].
  destruct (z.with_default _ _ (input !! "reveal_personal_emails"));
    [|intros [= <-]; by eexists].
  destruct (z.with_default _ _ (input !! "reveal_phone_number"));
    [|intros [= <-]; by eexists].
  destruct (z.optional _ (input !! "run_waterfall_email")); [|intros [= <-]; by eexists].
  destruct (z.optional _ (input !! "run_waterfall_phone")); [|intros [= <-]; by eexists].
  destruct (z.optional _ (input !! "webhook_url")); [|intros [= <-]; by eexists].
  done.
Qed.

Lemma refine_identifier_spec (input : jsobject) (data : EnrichPersonInput.t) :
  enrichPersonInputObject fmt input = inr data →
  (refine_identifier data = true ↔ has_identifier input).
Proof.
  intros (Hemail & Hlinkedin & Hfirst & Hlast & Hname & Horg & Hdomain & _)
    %enrichPersonInputObject_fields.
  unfold refine_identifier, has_identifier.
  rewrite !orb_true_iff, !andb_true_iff, !orb_true_iff.
  rewrite (optional_string_supplied _ _ _ _ Hemail),
    (optional_string_supplied _ _ _ _ Hlinkedin),
    (optional_string_supplied _ _ _ _ Hfirst),
    (optional_string_supplied _ _ _ _ Hlast),
    (optional_string_supplied _ _ _ _ Hname),
    (optional_string_supplied _ _ _ _ Horg),
    (optional_string_supplied _ _ _ _ Hdomain).
  tauto.
Qed.

Lemma refine_webhook_spec (input : jsobject) (data : EnrichPersonInput.t) :
  enrichPersonInputObject fmt input = inr data →
  (refine_webhook data = true ↔ webhook_present_if_async input).
Proof.
  intros (_ & _ & _ & _ & _ & _ & _ & Hwe & Hwp & Hhook)%enrichPersonInputObject_fields.
  unfold refine_webhook, webhook_present_if_async.
  rewrite <- (optional_boolean_on _ _ _ Hwe), <- (optional_boolean_on _ _ _ Hwp),
    <- (optional_string_supplied _ _ _ _ Hhook), <- orb_true_iff.
  destruct (truthy_flag _ || truthy_flag _); naive_solver.
Qed.

(** The schema accepts exactly when the object schema does and both
    refinements hold. *)
Lemma enrichPersonInputSchema_inr (input : jsobject) (data : EnrichPersonInput.t) :
  enrichPersonInputSchema fmt input = inr data ↔
  enrichPersonInputObject fmt input = inr data
  ∧ refine_identifier data = true
  ∧ refine_webhook data = true.
Proof.
  unfold enrichPersonInputSchema, bind, z.refine_issue.
  destruct (enrichPersonInputObject fmt input) as [e|data']; [naive_solver|].
  destruct (refine_identifier data') eqn:Hid, (refine_webhook data') eqn:Hhook; simpl;
    split; try done; try (intros [= <-]; done); try (intros ([= <-] & ? & ?); congruence).
  by intros ([= <-] & _ & _).
Qed.

(** Whatever the schema throws is a [ZodError]. *)
Lemma enrichPersonInputSchema_throws (input : jsobject) (e : exn) :
  enrichPersonInputSchema fmt input = inl e → ∃ issues, e = ZodError issues.
Proof.
  unfold enrichPersonInputSchema, bind, z.refine_issue.
  destruct (enrichPersonInputObject fmt input) as [e'|data] eqn:Hobj.
  - intros [= <-]. by eapply enrichPersonInputObject_throws.
  - destruct (refine_identifier data), (refine_webhook data); simpl; try done;
      intros [= <-]; by eexists.
Qed.

(** A waterfall request without an explicit [webhook_url] never passes
    validation, so the executor throws before it looks at the server's
    default callback URL. *)
Lemma waterfall_requires_explicit_webhook
    (fetch : string → RequestInit.t → outcome (Response.t RawEnrichBody.t))
    (client : ApolloClient.t) (input : jsobject) (serverWebhookUrl : option string) :
  input !! "webhook_url" = None →
  flag_on input "run_waterfall_email" ∨ flag_on input "run_waterfall_phone" →
  ∃ issues,
    enrichPersonInputSchema fmt input = inl (ZodError issues)
    ∧ executeEnrichPerson fmt fetch client input serverWebhookUrl = inl (ZodError issues).
Proof.
  intros Hnone Hasync.
  destruct (enrichPersonInputSchema fmt input) as [e|data] eqn:Hparse.
  - destruct (enrichPersonInputSchema_throws _ _ Hparse) as [issues ->].
    exists issues. split; [done|]. unfold executeEnrichPerson. by rewrite Hparse.
  - exfalso. apply enrichPersonInputSchema_inr in Hparse as (Hobj & _ & Hhook).
    apply (refine_webhook_spec _ _ Hobj) in Hhook.
    destruct (Hhook Hasync) as (s & Hs & _). congruence.
Qed.

(** The [serverWebhookUrl] argument has no influence on the outcome. *)
Lemma executeEnrichPerson_server_default_unused
    (fetch : string → RequestInit.t → outcome (Response.t RawEnrichBody.t))
    (client : ApolloClient.t) (input : jsobject) (server1 server2 : option string) :
  executeEnrichPerson fmt fetch client input server1
  = executeEnrichPerson fmt fetch client input server2.
Proof.
  unfold executeEnrichPerson.
  destruct (enrichPersonInputSchema fmt input) as [e|data] eqn:Hparse; [done|].
  apply enrichPersonInputSchema_inr in Hparse as (_ & _ & Hhook).
  cbn [bind]. unfold refine_webhook in Hhook.
  destruct (truthy_flag (EnrichPersonInput.run_waterfall_email data)
            || truthy_flag (EnrichPersonInput.run_waterfall_phone data)); [|done].
  unfold Js.or_opt. unfold truthy_str in Hhook. by rewrite Hhook.
Qed.

End Enrich.

(** *** Waterfall requests and the server's default callback URL *)

(** C1. The claim expects a waterfall request without [webhook_url] to be
    accepted when the server has a default callback URL.  The code rejects
    it: [{email: "a@b.com", run_waterfall_email: true}] fails the second
    refinement of the schema, and [executeEnrichPerson] throws that error
    although a server default is passed, before the fallback that would use
    it and before any request is made. *)
Theorem waterfall_with_server_default_rejected :
  enrichPersonInputSchema sample_formats waterfall_input
    = inl (ZodError [custom webhook_message])
  ∧ (∀ fetch,
       executeEnrichPerson sample_formats fetch sample_client waterfall_input server_default
       = inl (ZodError [custom webhook_message])).
Proof.
  split; [vm_compute; reflexivity|]. intros fetch. vm_compute. reflexivity.
Qed.

(** *** The identifier rule *)

(** C4, as stated, fails in the "if" direction: an input that contains an
    e-mail address is still rejected when it asks for waterfall enrichment
    without a webhook. *)
Lemma identifier_alone_not_sufficient :
  has_identifier waterfall_input
  ∧ enrichPersonInputSchema sample_formats waterfall_input
    = inl (ZodError [custom webhook_message]).
Proof.
  split; [|vm_compute; reflexivity].
  left. exists "a@b.com". split; [vm_compute; reflexivity | done].
Qed.

(** C4 (amended). Validation accepts an input only if it supplies (as a
    non-empty string) at least one of: an e-mail, a profile URL, first and
    last name together with an organization name or domain, or a full name
    together with an organization name or domain.  Among the inputs whose
    fields are individually well-formed and that satisfy the webhook rule,
    it accepts exactly those that do.  It rejects [{}] for want of an
    identifier and accepts [{email: "a@b.com"}] (given that the address
    passes the e-mail format check). *)
Theorem enrichPersonInputSchema_identifier_rule (fmt : z.formats) (input : jsobject) :
  (∀ data, enrichPersonInputSchema fmt input = inr data → has_identifier input)
  ∧ (∀ data,
       enrichPersonInputObject fmt input = inr data →
       webhook_present_if_async input →
       (enrichPersonInputSchema fmt input = inr data ↔ has_identifier input))
  ∧ ¬ has_identifier ∅
  ∧ enrichPersonInputSchema fmt ∅ = inl (ZodError [custom identifier_message])
  ∧ (z.is_email fmt "a@b.com" = true →
     has_identifier email_input
     ∧ ∃ data, enrichPersonInputSchema fmt email_input = inr data
               ∧ EnrichPersonInput.email data = Some "a@b.com").
Proof.
  split_and!.
  - intros data (Hobj & Hid & _)%enrichPersonInputSchema_inr.
    by apply (refine_identifier_spec fmt input data).
  - intros data Hobj Hhook. rewrite enrichPersonInputSchema_inr.
    rewrite <- (refine_identifier_spec fmt input data Hobj).
    apply (refine_webhook_spec fmt input data Hobj) in Hhook. naive_solver.
  - unfold has_identifier, supplied. setoid_rewrite lookup_empty. naive_solver.
  - reflexivity.
  - intros Hemail. split.
    + left. exists "a@b.com". split; [vm_compute; reflexivity | done].
    + eexists. unfold enrichPersonInputSchema, enrichPersonInputObject, email_input.
      rewrite lookup_singleton_eq. rewrite !lookup_singleton_ne by done.
      cbn [z.optional z.string_ z.with_default]. rewrite Hemail.
      cbn. split; reflexivity.
Qed.

Lemma enrichPersonInputSchema_identifier_rule_witness :
  has_identifier email_input
  ∧ ∃ data, enrichPersonInputSchema sample_formats email_input = inr data
            ∧ EnrichPersonInput.email data = Some "a@b.com".
Proof.
  destruct (enrichPersonInputSchema_identifier_rule sample_formats email_input)
    as (_ & _ & _ & _ & Haccepts).
  apply Haccepts. reflexivity.
Defined.

(** *** Echo of the callback URL *)

(** C5. When [executeEnrichPerson] returns, the call is asynchronous
    exactly when a waterfall flag of the input is [true]; the returned
    [webhook_url] is set only in that case, and a synchronous call returns
    no [webhook_url] whatever the caller supplied. *)
Theorem executeEnrichPerson_webhook_only_when_async (fmt : z.formats)
    (fetch : string → RequestInit.t → outcome (Response.t RawEnrichBody.t))
    (client : ApolloClient.t) (input : jsobject) (serverWebhookUrl : option string)
    (out : EnrichmentResult) :
  executeEnrichPerson fmt fetch client input serverWebhookUrl = inr out →
  (EnrichmentResult.is_async out = true ↔
   flag_on input "run_waterfall_email" ∨ flag_on input "run_waterfall_phone")
  ∧ (is_Some (EnrichmentResult.webhook_url out) → EnrichmentResult.is_async out = true)
  ∧ (EnrichmentResult.is_async out = false → EnrichmentResult.webhook_url out = None).
Proof.
  unfold executeEnrichPerson.
  destruct (enrichPersonInputSchema fmt input) as [e|data] eqn:Hparse; [done|].
  cbn [bind].
  destruct (ApolloClient.enrichPerson _ _ _) as [e|response]; [done|].
  cbn [bind ret]. intros [= <-].
  cbn [EnrichmentResult.is_async EnrichmentResult.webhook_url].
  apply enrichPersonInputSchema_inr in Hparse as (Hobj & _ & _).
  destruct (enrichPersonInputObject_fields fmt _ _ Hobj)
    as (_ & _ & _ & _ & _ & _ & _ & Hwe & Hwp & _).
  split_and!.
  - rewrite orb_true_iff.
    by rewrite (optional_boolean_on _ _ _ Hwe), (optional_boolean_on _ _ _ Hwp).
  - destruct (truthy_flag _ || truthy_flag _); [done | by intros [? [=]]].
  - by intros ->.
Qed.

Lemma executeEnrichPerson_webhook_only_when_async_witness :
  ∃ out,
    executeEnrichPerson sample_formats fetch_enriched sample_client
      sync_input_with_webhook server_default = inr out
    ∧ EnrichmentResult.is_async out = false
    ∧ EnrichmentResult.webhook_url out = None.
Proof.
  eexists. split; [vm_compute; reflexivity|]. split; [reflexivity|].
  eapply (executeEnrichPerson_webhook_only_when_async sample_formats fetch_enriched
            sample_client sync_input_with_webhook server_default);
    [vm_compute; reflexivity | reflexivity].
Defined.

(** * Further properties of the tools and the client *)

(** ** Search input validation *)

Lemma strings_of_spec (l : list json) (ss : list string) :
  z.strings_of l = Some ss ↔ l = JStr <$> ss.
Proof.
  revert ss. induction l as [|j l IH]; intros ss; simpl.
  - destruct ss; naive_solver.
  - destruct j; try (destruct ss; naive_solver).
    destruct (z.strings_of l) as [ss'|] eqn:E.
    + destruct ss as [|s' ss]; [naive_solver|]. rewrite fmap_cons. split.
      * intros [= -> ->]. f_equal. by apply IH.
      * intros [= -> Hl]. apply IH in Hl. congruence.
    + destruct ss as [|s' ss]; [naive_solver|]. rewrite fmap_cons. split; [done|].
      intros [= -> Hl]. apply IH in Hl. congruence.
Qed.

Lemma strings_between_spec (lo hi : nat) (v : json) (ss : list string) :
  z.strings_between lo hi v = Some ss ↔
  v = JArr (JStr <$> ss) ∧ (lo ≤ length ss ≤ hi)%nat.
Proof.
  unfold z.strings_between. destruct v as [| | | |l|]; try naive_solver.
  split.
  - destruct (z.strings_of l) as [ss'|] eqn:E; [|done].
    apply strings_of_spec in E. subst l.
    destruct (Nat.leb_spec lo (length ss')), (Nat.leb_spec (length ss') hi); simpl; try done.
    intros [= <-]. split; [done | lia].
  - intros [[= ->] Hlen].
    rewrite (proj2 (strings_of_spec (JStr <$> ss) ss) eq_refl).
    destruct (Nat.leb_spec lo (length ss)), (Nat.leb_spec (length ss) hi); simpl;
      try done; lia.
Qed.

Lemma max_length_spec (n : nat) (s : string) :
  z.max_length n s = true ↔ (String.length s ≤ n)%nat.
Proof. unfold z.max_length. apply Nat.leb_le. Qed.

Lemma optional_string_spec (check : string → bool) (v : option json) (o : option string) :
  z.optional (z.string_ check) v = Some o ↔
  match o with
  | Some s => v = Some (JStr s) ∧ check s = true
  | None => v = None
  end.
Proof.
  unfold z.optional, z.string_.
  destruct v as [j|].
  - destruct j as [|b|n|s|l|l]; destruct o as [s'|]; split; try done;
      try (by intros [? _]).
    + destruct (check s) eqn:E; [|done]. by intros [= ->].
    + intros [[= ->] ->]. done.
    + by destruct (check s).
  - destruct o; split; try done. by intros [? _].
Qed.

(** How the fields of a parsed search input come from the raw object. *)
Lemma searchPeopleInputSchema_fields (input : jsobject) (v : SearchPeopleInput.t) :
  searchPeopleInputSchema input = inr v →
  z.required (z.strings_between 1 50) (input !! "person_titles")
    = Some (SearchPeopleInput.person_titles v)
  ∧ z.optional (z.strings_between 0 50) (input !! "person_locations")
    = Some (SearchPeopleInput.person_locations v)
  ∧ z.optional (z.string_ (z.max_length 500)) (input !! "q_keywords")
    = Some (SearchPeopleInput.q_keywords v)
  ∧ z.with_default (z.int_between 1 100) 1 (input !! "page")
    = Some (SearchPeopleInput.page v)
  ∧ z.with_default (z.int_between 1 100) 25 (input !! "per_page")
    = Some (SearchPeopleInput.per_page v).
Proof.
  unfold searchPeopleInputSchema.
  destruct (z.required _ _); [|done].
  destruct (z.optional _ (input !! "person_locations")); [|done].
  destruct (z.optional _ (input !! "q_keywords")); [|done].
  destruct (z.with_default _ _ (input !! "page")); [|done].
  destruct (z.with_default _ _ (input !! "per_page")); [|done].
  intros [= <-]. by split_and!.
Qed.

(** A search input is rejected with exactly the issues of its keys. *)
Lemma searchPeopleInputSchema_inl (input : jsobject) (e : exn) :
  searchPeopleInputSchema input = inl e → e = ZodError (search_issues input).
Proof.
  unfold searchPeopleInputSchema, search_issues, throw.
  destruct (z.required _ _); [|by intros [= <-]].
  destruct (z.optional _ (input !! "person_locations")); [|by intros [= <-]].
  destruct (z.optional _ (input !! "q_keywords")); [|by intros [= <-]].
  destruct (z.with_default _ _ (input !! "page")); [|by intros [= <-]].
  destruct (z.with_default _ _ (input !! "per_page")); [|by intros [= <-]].
  done.
Qed.

(** X1. A search input that passes validation carries its titles as an
    array of 1 to 50 strings, at most 50 location strings, keywords of at
    most 500 characters, and a page and page size between 1 and 100; the
    validated record holds exactly those values. *)
Theorem searchPeopleInputSchema_bounds (input : jsobject) (v : SearchPeopleInput.t) :
  searchPeopleInputSchema input = inr v →
  (input !! "person_titles" = Some (JArr (JStr <$> SearchPeopleInput.person_titles v))
   ∧ (1 ≤ length (SearchPeopleInput.person_titles v) ≤ 50)%nat)
  ∧ match SearchPeopleInput.person_locations v with
    | Some locations =>
        input !! "person_locations" = Some (JArr (JStr <$> locations))
        ∧ (length locations ≤ 50)%nat
    | None => input !! "person_locations" = None
    end
  ∧ match SearchPeopleInput.q_keywords v with
    | Some keywords =>
        input !! "q_keywords" = Some (JStr keywords) ∧ (String.length keywords ≤ 500)%nat
    | None => input !! "q_keywords" = None
    end
  ∧ (1 ≤ SearchPeopleInput.page v ≤ 100)%Z
  ∧ (1 ≤ SearchPeopleInput.per_page v ≤ 100)%Z.
Proof.
  intros Hparse.
  destruct (searchPeopleInputSchema_page _ _ Hparse) as [(Hpage & _) (Hper & _)].
  destruct (searchPeopleInputSchema_fields _ _ Hparse) as (Ht & Hl & Hk & _).
  split; [|split; [|split; [|split]]]; try done.
  - unfold z.required in Ht. destruct (input !! "person_titles") as [j|]; [|done].
    apply strings_between_spec in Ht as [-> ?]. done.
  - unfold z.optional in Hl.
    destruct (input !! "person_locations") as [j|].
    + destruct (z.strings_between 0 50 j) as [ls|] eqn:E; [|done].
      injection Hl as <-. apply strings_between_spec in E as [-> ?]. split; [done | lia].
    + by injection Hl as <-.
  - apply optional_string_spec in Hk.
    destruct (SearchPeopleInput.q_keywords v); [|done].
    destruct Hk as [-> Hlen]. by apply max_length_spec in Hlen.
Qed.

Lemma searchPeopleInputSchema_bounds_witness :
  (1 ≤ SearchPeopleInput.page ceo_search_validated ≤ 100)%Z
  ∧ (1 ≤ SearchPeopleInput.per_page ceo_search_validated ≤ 100)%Z.
Proof.
  assert (Hparse : searchPeopleInputSchema ceo_search = inr ceo_search_validated)
    by (vm_compute; reflexivity).
  destruct (searchPeopleInputSchema_bounds ceo_search ceo_search_validated Hparse)
    as (_ & _ & _ & Hpage & Hper).
  by split.
Defined.

(** X2. A search input is rejected, with an issue at that key, when a key
    the tool definition lists as required is missing, and also when
    [person_titles] is the empty array or has more than 50 entries. *)
Theorem searchPeopleInputSchema_requires_titles (input : jsobject) :
  (∀ key, key ∈ InputSchema.required (ToolDefinition.inputSchema searchPeopleToolDefinition) →
          input !! key = None →
          ∃ issues, searchPeopleInputSchema input = inl (ZodError issues)
                    ∧ invalid_field key ∈ issues)
  ∧ (∀ titles, input !! "person_titles" = Some (JArr titles) →
               titles = [] ∨ (50 < length titles)%nat →
               ∃ issues, searchPeopleInputSchema input = inl (ZodError issues)
                         ∧ invalid_field "person_titles" ∈ issues).
Proof.
  assert (Hreject :
    z.required (z.strings_between 1 50) (input !! "person_titles") = None →
    ∃ issues, searchPeopleInputSchema input = inl (ZodError issues)
              ∧ invalid_field "person_titles" ∈ issues).
  { intros Hnone. destruct (searchPeopleInputSchema input) as [e|v] eqn:Hparse.
    - rewrite (searchPeopleInputSchema_inl _ _ Hparse). eexists. split; [done|].
      unfold search_issues. rewrite Hnone. set_solver.
    - apply searchPeopleInputSchema_fields in Hparse as (Ht & _). congruence. }
  split.
  - intros key Hkey Hmissing. apply list_elem_of_singleton in Hkey. subst key.
    apply Hreject. by rewrite Hmissing.
  - intros titles Htitles Hsize. apply Hreject. rewrite Htitles. simpl.
    destruct (z.strings_of titles) as [ss|] eqn:E; [|done].
    apply strings_of_spec in E. subst titles. rewrite length_fmap in Hsize.
    destruct Hsize as [Hnil | Hbig].
    + apply fmap_nil_inv in Hnil. by subst ss.
    + destruct (Nat.leb_spec (length ss) 50); [lia|]. by rewrite andb_false_r.
Qed.

Lemma searchPeopleInputSchema_requires_titles_witness :
  ∃ issues, searchPeopleInputSchema {[ "page" := JNum 2 ]} = inl (ZodError issues)
            ∧ invalid_field "person_titles" ∈ issues.
Proof.
  destruct (searchPeopleInputSchema_requires_titles {[ "page" := JNum 2 ]}) as [Hrequired _].
  apply Hrequired.
  - vm_compute. left.
  - vm_compute. reflexivity.
Defined.

(** ** The search tool definition against its schema *)

(** X3. A key that the search tool definition does not declare has no
    effect on validation: adding or overwriting it leaves the result of
    [searchPeopleInputSchema] unchanged. *)
Theorem searchPeopleInputSchema_ignores_undeclared (input : jsobject) (key : string)
    (value : json) :
  key ∉ declared_keys searchPeopleToolDefinition →
  searchPeopleInputSchema (<[key := value]> input) = searchPeopleInputSchema input.
Proof.
  intros Hkey. unfold searchPeopleInputSchema.
  rewrite !lookup_insert_ne; [done | ..]; intros ->; apply Hkey; vm_compute; set_solver.
Qed.

Lemma searchPeopleInputSchema_ignores_undeclared_witness :
  searchPeopleInputSchema (<["email" := JStr "a@b.com"]> ceo_search)
  = searchPeopleInputSchema ceo_search.
Proof.
  apply searchPeopleInputSchema_ignores_undeclared. vm_compute. set_solver.
Defined.

(** X4. A value whose JSON type differs from the type the search tool
    definition declares for its key is rejected, with an issue at that
    key. *)
Theorem searchPeopleInputSchema_enforces_declared_types (input : jsobject) (key : string)
    (property : PropertySchema.t) (value : json) :
  (key, property)
    ∈ InputSchema.properties (ToolDefinition.inputSchema searchPeopleToolDefinition) →
  input !! key = Some value →
  json_type value ≠ PropertySchema.type property →
  ∃ issues, searchPeopleInputSchema input = inl (ZodError issues)
            ∧ invalid_field key ∈ issues.
Proof.
  intros Hdeclared Hvalue Htype.
  assert (Hissue : invalid_field key ∈ search_issues input).
  { unfold search_issues. cbn in Hdeclared.
    repeat (apply elem_of_cons in Hdeclared as [[= -> ->] | Hdeclared]);
      [| | | | | by apply elem_of_nil in Hdeclared];
      rewrite Hvalue; destruct value; try done; cbn; set_solver. }
  destruct (searchPeopleInputSchema input) as [e|v] eqn:Hparse.
  - rewrite (searchPeopleInputSchema_inl _ _ Hparse). by eexists.
  - exfalso. destruct (searchPeopleInputSchema_fields _ _ Hparse) as (Ht & Hl & Hk & Hp & Hpp).
    unfold search_issues in Hissue. rewrite Ht, Hl, Hk, Hp, Hpp in Hissue.
    by apply elem_of_nil in Hissue.
Qed.

Lemma searchPeopleInputSchema_enforces_declared_types_witness :
  ∃ issues,
    searchPeopleInputSchema {[ "person_titles" := JArr [JStr "CEO"]; "page" := JStr "2" ]}
    = inl (ZodError issues)
    ∧ invalid_field "page" ∈ issues.
Proof.
  eapply (searchPeopleInputSchema_enforces_declared_types _ "page"
            (PropertySchema.mk "number" None) (JStr "2")).
  - vm_compute. set_solver.
  - vm_compute. reflexivity.
  - discriminate.
Defined.

(** ** The search request and its result *)

Lemma lookup_set_strings_eq (k : string) (o : option (list string)) (body : jsobject) :
  set_strings k o body !! k =
    match o with
    | Some (s :: l) => Some (JArr (JStr <$> s :: l))
    | _ => body !! k
    end.
Proof.
  unfold set_strings. destruct o as [[|s l]|]; try done. simpl. apply lookup_insert_eq.
Qed.

Lemma lookup_set_strings_ne (k k' : string) (o : option (list string)) (body : jsobject) :
  k ≠ k' → set_strings k o body !! k' = body !! k'.
Proof.
  intros Hne. unfold set_strings. destruct o as [l|]; [|done].
  destruct (0 <? length l)%nat; [by apply lookup_insert_ne | done].
Qed.

Lemma or_default_number_nonzero (a : option Z) (d : Z) :
  d ≠ 0%Z → Js.or_default Js.truthy_number a d ≠ 0%Z.
Proof.
  intros Hd. unfold Js.or_default. destruct a as [n|]; [|done].
  destruct (Js.truthy_number n) eqn:E; [|done]. by apply truthy_number_spec.
Qed.

Lemma or_default_number_keeps (n d : Z) :
  n ≠ 0%Z → Js.or_default Js.truthy_number (Some n) d = n.
Proof. intros Hn%truthy_number_spec. unfold Js.or_default. by rewrite Hn. Qed.

Ltac lookup_search_body :=
  unfold ApolloClient.searchPeople_body; cbv zeta;
  repeat first
    [ rewrite lookup_set_string_ne by done
    | rewrite lookup_set_strings_ne by done
    | rewrite lookup_set_string_eq
    | rewrite lookup_set_strings_eq
    | rewrite lookup_insert_eq
    | rewrite lookup_insert_ne by done
    | rewrite lookup_empty ].

(** X5. Whatever parameters [searchPeople] is called with, the request
    body has no keys besides page, per_page, person_titles,
    person_locations and q_keywords; its page is a non-zero number, its
    per_page a non-zero number of at most 100; and it never carries an
    empty array or an empty keyword string. *)
Theorem searchPeople_body_shape (params : SearchParams.t) :
  let body := ApolloClient.searchPeople_body params in
  (∀ key, is_Some (body !! key) → key ∈ search_body_keys)
  ∧ (∃ page, body !! "page" = Some (JNum page) ∧ page ≠ 0%Z)
  ∧ (∃ per_page, body !! "per_page" = Some (JNum per_page)
                 ∧ per_page ≠ 0%Z ∧ (per_page ≤ 100)%Z)
  ∧ body !! "person_titles" ≠ Some (JArr [])
  ∧ body !! "person_locations" ≠ Some (JArr [])
  ∧ body !! "q_keywords" ≠ Some (JStr "").
Proof.
  simpl. split; [|split; [|split; [|split; [|split]]]].
  - intros key Hkey. unfold search_body_keys.
    destruct (decide (key = "q_keywords")) as [->|?]; [set_solver|].
    destruct (decide (key = "person_locations")) as [->|?]; [set_solver|].
    destruct (decide (key = "person_titles")) as [->|?]; [set_solver|].
    destruct (decide (key = "per_page")) as [->|?]; [set_solver|].
    destruct (decide (key = "page")) as [->|?]; [set_solver|].
    exfalso. revert Hkey. unfold ApolloClient.searchPeople_body. cbv zeta.
    rewrite lookup_set_string_ne, !lookup_set_strings_ne, !lookup_insert_ne, lookup_empty
      by done.
    by intros [? [=]].
  - eexists. split; [lookup_search_body; reflexivity|].
    by apply or_default_number_nonzero.
  - eexists. split; [lookup_search_body; reflexivity|].
    pose proof (or_default_number_nonzero (SearchParams.per_page params) 25). lia.
  - lookup_search_body. by destruct (SearchParams.person_titles params) as [[|]|].
  - lookup_search_body. by destruct (SearchParams.person_locations params) as [[|]|].
  - lookup_search_body.
    destruct (present (SearchParams.q_keywords params)) as [s|] eqn:E; [|done].
    apply present_Some in E. naive_solver.
Qed.

(** X6. For a valid search input the executor's request body carries the
    validated page and page size unchanged (the cap at 100 and the
    defaults are never active), always carries the titles, and carries
    locations and keywords exactly when they are non-empty; if that request
    fails, the executor fails with the same error. *)
Theorem executeSearchPeople_request_body
    (fetch : string → RequestInit.t → outcome (Response.t RawSearchBody.t))
    (client : ApolloClient.t) (input : jsobject) (v : SearchPeopleInput.t) :
  searchPeopleInputSchema input = inr v →
  let body := ApolloClient.searchPeople_body (searchPeople_params v) in
  body !! "page" = Some (JNum (SearchPeopleInput.page v))
  ∧ body !! "per_page" = Some (JNum (SearchPeopleInput.per_page v))
  ∧ body !! "person_titles" = Some (JArr (JStr <$> SearchPeopleInput.person_titles v))
  ∧ body !! "person_locations"
    = match SearchPeopleInput.person_locations v with
      | Some (l :: ls) => Some (JArr (JStr <$> l :: ls))
      | _ => None
      end
  ∧ body !! "q_keywords" = JStr <$> present (SearchPeopleInput.q_keywords v)
  ∧ (∀ e, ApolloClient.makeRequest fetch client SEARCH_ENDPOINT body = inl e →
          executeSearchPeople fetch client input = inl e).
Proof.
  intros Hparse.
  destruct (searchPeopleInputSchema_page _ _ Hparse) as [(Hpage & _) (Hper & _)].
  destruct (searchPeopleInputSchema_fields _ _ Hparse) as (Ht & _).
  simpl. split; [|split; [|split; [|split; [|split]]]].
  - lookup_search_body; cbn [searchPeople_params SearchParams.page SearchParams.per_page
      SearchParams.person_titles SearchParams.person_locations SearchParams.q_keywords]. rewrite or_default_number_keeps by lia. done.
  - lookup_search_body; cbn [searchPeople_params SearchParams.page SearchParams.per_page
      SearchParams.person_titles SearchParams.person_locations SearchParams.q_keywords]. rewrite or_default_number_keeps by lia.
    f_equal. f_equal. lia.
  - lookup_search_body; cbn [searchPeople_params SearchParams.page SearchParams.per_page
      SearchParams.person_titles SearchParams.person_locations SearchParams.q_keywords].
    unfold z.required in Ht. destruct (input !! "person_titles") as [j|]; [|done].
    apply strings_between_spec in Ht as [_ Hlen].
    destruct (SearchPeopleInput.person_titles v); [simpl in Hlen; lia | done].
  - lookup_search_body; cbn [searchPeople_params SearchParams.page SearchParams.per_page
      SearchParams.person_titles SearchParams.person_locations SearchParams.q_keywords].
    by destruct (SearchPeopleInput.person_locations v) as [[|]|].
  - lookup_search_body; cbn [searchPeople_params SearchParams.page SearchParams.per_page
      SearchParams.person_titles SearchParams.person_locations SearchParams.q_keywords]. by destruct (present _).
  - intros e He. unfold executeSearchPeople, ApolloClient.searchPeople.
    rewrite Hparse. cbn [bind]. by rewrite He.
Qed.

Lemma executeSearchPeople_request_body_witness :
  ApolloClient.searchPeople_body (searchPeople_params ceo_search_validated) !! "per_page"
  = Some (JNum 10).
Proof.
  assert (Hparse : searchPeopleInputSchema ceo_search = inr ceo_search_validated)
    by (vm_compute; reflexivity).
  destruct (executeSearchPeople_request_body fetch_down sample_client ceo_search
              ceo_search_validated Hparse) as (_ & Hper & _).
  exact Hper.
Defined.

(** X7. For a valid search input and an answer of the provider, the output
    lists exactly the provider's people (none if the answer has no people
    key), normalized one by one in the provider's order: same length, and
    the person at each position keeps its provider id. *)
Theorem executeSearchPeople_people
    (fetch : string → RequestInit.t → outcome (Response.t RawSearchBody.t))
    (client : ApolloClient.t) (input : jsobject)
    (v : SearchPeopleInput.t) (answer : RawSearchBody.t) :
  searchPeopleInputSchema input = inr v →
  ApolloClient.makeRequest fetch client SEARCH_ENDPOINT
    (ApolloClient.searchPeople_body (searchPeople_params v)) = inr answer →
  ∃ out,
    executeSearchPeople fetch client input = inr out
    ∧ let upstream := default [] (RawSearchBody.people answer) in
      SearchResult.people out = ApolloClient.normalizeSearchPerson <$> upstream
      ∧ length (SearchResult.people out) = length upstream
      ∧ (∀ i person, upstream !! i = Some person →
           ∃ canonical, SearchResult.people out !! i = Some canonical
                        ∧ NormalizedPerson.apollo_id canonical = ApolloPersonSearch.id person)
      ∧ (RawSearchBody.people answer = None → SearchResult.people out = []).
Proof.
  intros Hparse Hanswer.
  unfold executeSearchPeople, ApolloClient.searchPeople.
  rewrite Hparse. cbn [bind]. rewrite Hanswer. cbn [bind ret].
  eexists. split; [reflexivity|].
  cbn [SearchResult.people ApolloSearchResponse.people].
  split; [done|]. split; [by rewrite length_fmap|]. split.
  - intros i person Hi. exists (ApolloClient.normalizeSearchPerson person).
    split; [|done]. by rewrite list_lookup_fmap, Hi.
  - by intros ->.
Qed.

Lemma executeSearchPeople_people_witness :
  ∃ out,
    executeSearchPeople fetch_full_page sample_client ceo_search = inr out
    ∧ length (SearchResult.people out) = 1%nat.
Proof.
  destruct (executeSearchPeople_people fetch_full_page sample_client ceo_search
              ceo_search_validated
              (RawSearchBody.mk (Some [jane_search])
                 (Some (RawPagination.mk (Some 3%Z) (Some 10%Z) (Some 21%Z) (Some 3%Z)))))
    as (out & Hout & _ & Hlength & _).
  - vm_compute. reflexivity.
  - vm_compute. reflexivity.
  - exists out. split; [exact Hout | exact Hlength].
Defined.

(** X8. For a valid search input, whatever goes wrong with the request
    reaches the caller unchanged: a rejected [fetch] and an unreadable JSON
    answer surface as they are, and a non-2xx response surfaces as the
    error ["Apollo API error: <status> <statusText>"]. *)
Theorem executeSearchPeople_provider_failure
    (fetch : string → RequestInit.t → outcome (Response.t RawSearchBody.t))
    (client : ApolloClient.t) (input : jsobject) (v : SearchPeopleInput.t) :
  searchPeopleInputSchema input = inr v →
  let request :=
    ApolloClient.request_init client (ApolloClient.searchPeople_body (searchPeople_params v)) in
  (∀ e, fetch SEARCH_ENDPOINT request = inl e →
        executeSearchPeople fetch client input = inl e)
  ∧ (∀ response, fetch SEARCH_ENDPOINT request = inr response →
        Response.ok response = false →
        executeSearchPeople fetch client input
        = inl (Error ("Apollo API error: " +:+ pretty (Response.status response)
                        +:+ " " +:+ Response.statusText response)))
  ∧ (∀ response e, fetch SEARCH_ENDPOINT request = inr response →
        Response.ok response = true →
        Response.json response = inl e →
        executeSearchPeople fetch client input = inl e).
Proof.
  intros Hparse. simpl.
  unfold executeSearchPeople, ApolloClient.searchPeople, ApolloClient.makeRequest.
  rewrite Hparse. cbn [bind]. split_and!.
  - by intros e ->.
  - intros response -> Hok. cbn [bind]. by rewrite Hok.
  - intros response e -> Hok Hjson. cbn [bind]. by rewrite Hok, Hjson.
Qed.

Lemma executeSearchPeople_provider_failure_witness :
  executeSearchPeople fetch_down sample_client ceo_search
    = inl (FetchFailed "connect ECONNREFUSED")
  ∧ executeSearchPeople fetch_unauthorized sample_client ceo_search
    = inl (Error "Apollo API error: 401 Unauthorized")
  ∧ executeSearchPeople fetch_not_json sample_client ceo_search
    = inl (Error "Unexpected token < in JSON").
Proof.
  assert (Hparse : searchPeopleInputSchema ceo_search = inr ceo_search_validated)
    by (vm_compute; reflexivity).
  split; [|split].
  - destruct (executeSearchPeople_provider_failure fetch_down sample_client ceo_search
                ceo_search_validated Hparse) as (Hdown & _ & _).
    by apply Hdown.
  - destruct (executeSearchPeople_provider_failure fetch_unauthorized sample_client
                ceo_search ceo_search_validated Hparse) as (_ & Hstatus & _).
    exact (Hstatus unauthorized eq_refl eq_refl).
  - destruct (executeSearchPeople_provider_failure fetch_not_json sample_client
                ceo_search ceo_search_validated Hparse) as (_ & _ & Hjson).
    eapply Hjson; reflexivity.
Defined.

(** ** Validation comes before the network *)

(** X9. An input that validation does not accept makes each executor throw
    a [ZodError] that is the same whatever the network would answer, the
    client is and (for enrichment) the server default is: no request
    decides the outcome. *)
Theorem executors_validate_first (fmt : z.formats) (input : jsobject) :
  ((∀ v, searchPeopleInputSchema input ≠ inr v) →
   ∃ issues, ∀ fetch client,
     executeSearchPeople fetch client input = inl (ZodError issues))
  ∧ ((∀ data, enrichPersonInputSchema fmt input ≠ inr data) →
     ∃ issues, ∀ fetch client serverWebhookUrl,
       executeEnrichPerson fmt fetch client input serverWebhookUrl = inl (ZodError issues)).
Proof.
  split.
  - intros Hinvalid. destruct (searchPeopleInputSchema input) as [e|v] eqn:Hparse.
    + pose proof (searchPeopleInputSchema_inl _ _ Hparse) as ->.
      eexists. intros fetch client. unfold executeSearchPeople. by rewrite Hparse.
    + by destruct (Hinvalid v).
  - intros Hinvalid. destruct (enrichPersonInputSchema fmt input) as [e|data] eqn:Hparse.
    + destruct (enrichPersonInputSchema_throws _ _ _ Hparse) as [issues ->].
      exists issues. intros fetch client server. unfold executeEnrichPerson.
      by rewrite Hparse.
    + by destruct (Hinvalid data).
Qed.

Lemma executors_validate_first_witness :
  (∃ issues, ∀ fetch client,
     executeSearchPeople fetch client ∅ = inl (ZodError issues))
  ∧ (∃ issues, ∀ fetch client serverWebhookUrl,
       executeEnrichPerson sample_formats fetch client ∅ serverWebhookUrl
       = inl (ZodError issues)).
Proof.
  destruct (executors_validate_first sample_formats ∅) as [Hsearch Henrich].
  split.
  - apply Hsearch. intros v. vm_compute. discriminate.
  - apply Henrich. intros data. vm_compute. discriminate.
Defined.

(** ** The enrich tool definition against its schema *)

(** How all twelve fields of a parsed enrichment input come from the raw
    object. *)
Lemma enrichPersonInputObject_all_fields (fmt : z.formats) (input : jsobject)
    (data : EnrichPersonInput.t) :
  enrichPersonInputObject fmt input = inr data →
  enrich_issues fmt input = []
  ∧ z.with_default z.boolean false (input !! "reveal_personal_emails")
    = Some (EnrichPersonInput.reveal_personal_emails data)
  ∧ z.with_default z.boolean false (input !! "reveal_phone_number")
    = Some (EnrichPersonInput.reveal_phone_number data).
Proof.
  unfold enrichPersonInputObject, enrich_issues.
  destruct (z.optional _ (input !! "email")); [|done].
  destruct (z.optional _ (input !! "linkedin_url")); [|done].
  destruct (z.optional _ (input !! "first_name")); [|done].
  destruct (z.optional _ (input !! "last_name")); [|done].
  destruct (z.optional _ (input !! "name")); [|done].
  destruct (z.optional _ (input !! "organization_name")); [|done].
  destruct (z.optional _ (input !! "domain")); [|done].
  destruct (z.with_default _ _ (input !! "reveal_personal_emails")); [|done].
  destruct (z.with_default _ _ (input !! "reveal_phone_number")); [|done].
  destruct (z.optional _ (input !! "run_waterfall_email")); [|done].
  destruct (z.optional _ (input !! "run_waterfall_phone")); [|done].
  destruct (z.optional _ (input !! "webhook_url")); [|done].
  intros [= <-]. by split_and!.
Qed.

(** The object schema rejects with exactly the issues of its keys. *)
Lemma enrichPersonInputObject_inl (fmt : z.formats) (input : jsobject) (e : exn) :
  enrichPersonInputObject fmt input = inl e → e = ZodError (enrich_issues fmt input).
Proof.
  unfold enrichPersonInputObject, enrich_issues, throw.
  destruct (z.optional _ (input !! "email")); [|by intros [= <-]].
  destruct (z.optional _ (input !! "linkedin_url")); [|by intros [= <-]].
  destruct (z.optional _ (input !! "first_name")); [|by intros [= <-]].
  destruct (z.optional _ (input !! "last_name")); [|by intros [= <-]].
  destruct (z.optional _ (input !! "name")); [|by intros [= <-]].
  destruct (z.optional _ (input !! "organization_name")); [|by intros [= <-]].
  destruct (z.optional _ (input !! "domain")); [|by intros [= <-]].
  destruct (z.with_default _ _ (input !! "reveal_personal_emails")); [|by intros [= <-]].
  destruct (z.with_default _ _ (input !! "reveal_phone_number")); [|by intros [= <-]].
  destruct (z.optional _ (input !! "run_waterfall_email")); [|by intros [= <-]].
  destruct (z.optional _ (input !! "run_waterfall_phone")); [|by intros [= <-]].
  destruct (z.optional _ (input !! "webhook_url")); [|by intros [= <-]].
  done.
Qed.

(** X10. A key that the enrich tool definition does not declare has no
    effect on validation: adding or overwriting it leaves the result of
    [enrichPersonInputSchema] unchanged. *)
Theorem enrichPersonInputSchema_ignores_undeclared (fmt : z.formats) (input : jsobject)
    (key : string) (value : json) :
  key ∉ declared_keys enrichPersonToolDefinition →
  enrichPersonInputSchema fmt (<[key := value]> input) = enrichPersonInputSchema fmt input.
Proof.
  intros Hkey. unfold enrichPersonInputSchema, enrichPersonInputObject.
  rewrite !lookup_insert_ne; [done | ..]; intros ->; apply Hkey; vm_compute; set_solver.
Qed.

Lemma enrichPersonInputSchema_ignores_undeclared_witness :
  enrichPersonInputSchema sample_formats (<["person_titles" := JArr [JStr "CEO"]]> email_input)
  = enrichPersonInputSchema sample_formats email_input.
Proof.
  apply enrichPersonInputSchema_ignores_undeclared. vm_compute. set_solver.
Defined.

(** X11. A value whose JSON type differs from the type the enrich tool
    definition declares for its key is rejected, with an issue at that
    key. *)
Theorem enrichPersonInputSchema_enforces_declared_types (fmt : z.formats)
    (input : jsobject) (key : string) (property : PropertySchema.t) (value : json) :
  (key, property)
    ∈ InputSchema.properties (ToolDefinition.inputSchema enrichPersonToolDefinition) →
  input !! key = Some value →
  json_type value ≠ PropertySchema.type property →
  ∃ issues, enrichPersonInputSchema fmt input = inl (ZodError issues)
            ∧ invalid_field key ∈ issues.
Proof.
  intros Hdeclared Hvalue Htype.
  assert (Hissue : invalid_field key ∈ enrich_issues fmt input).
  { unfold enrich_issues. cbn in Hdeclared.
    repeat (apply elem_of_cons in Hdeclared as [[= -> ->] | Hdeclared]);
      [| | | | | | | | | | | | by apply elem_of_nil in Hdeclared];
      rewrite Hvalue; destruct value; try done; cbn; set_solver. }
  unfold enrichPersonInputSchema.
  destruct (enrichPersonInputObject fmt input) as [e|data] eqn:Hobj.
  - rewrite (enrichPersonInputObject_inl _ _ _ Hobj). by eexists.
  - exfalso. apply enrichPersonInputObject_all_fields in Hobj as (Hnone & _).
    rewrite Hnone in Hissue. by apply elem_of_nil in Hissue.
Qed.

Lemma enrichPersonInputSchema_enforces_declared_types_witness :
  ∃ issues,
    enrichPersonInputSchema sample_formats
      {[ "email" := JStr "a@b.com"; "reveal_phone_number" := JStr "yes" ]}
    = inl (ZodError issues)
    ∧ invalid_field "reveal_phone_number" ∈ issues.
Proof.
  eapply (enrichPersonInputSchema_enforces_declared_types sample_formats _
            "reveal_phone_number" (PropertySchema.mk "boolean" None) (JStr "yes")).
  - vm_compute. set_solver.
  - vm_compute. reflexivity.
  - discriminate.
Defined.

(** ** The enrichment request and its result *)

(** [executeEnrichPerson] on a validated input, step by step. *)
Lemma executeEnrichPerson_validated (fmt : z.formats)
    (fetch : string → RequestInit.t → outcome (Response.t RawEnrichBody.t))
    (client : ApolloClient.t) (input : jsobject) (serverWebhookUrl : option string)
    (data : EnrichPersonInput.t) :
  enrichPersonInputSchema fmt input = inr data →
  executeEnrichPerson fmt fetch client input serverWebhookUrl
  = let isAsync :=
      truthy_flag (EnrichPersonInput.run_waterfall_email data)
      || truthy_flag (EnrichPersonInput.run_waterfall_phone data) in
    let params := enrichPerson_params data serverWebhookUrl in
    let! answer :=
      ApolloClient.makeRequest fetch client ENRICHMENT_ENDPOINT
        (ApolloClient.enrichPerson_body params) in
    ret (EnrichmentResult.mk
           (ApolloClient.normalizeEnrichedPerson <$> RawEnrichBody.person answer)
           (Js.or_default Js.truthy_string (RawEnrichBody.status answer) "unknown")
           (RawEnrichBody.enrichment_request_id answer)
           (RawEnrichBody.enrichment_status answer)
           isAsync
           (if isAsync then ApolloEnrichmentRequest.webhook_url params else None)).
Proof.
  intros Hparse. unfold executeEnrichPerson, ApolloClient.enrichPerson.
  rewrite Hparse. cbn [bind]. unfold enrichPerson_params. cbv zeta.
  by destruct (ApolloClient.makeRequest _ _ _ _).
Qed.

(** For an accepted input, the callback URL handed to the client is the
    caller's own, if it gave a non-empty one, and none otherwise. *)
Lemma enrichPerson_params_webhook (fmt : z.formats) (input : jsobject)
    (data : EnrichPersonInput.t) (serverWebhookUrl : option string) :
  enrichPersonInputSchema fmt input = inr data →
  ApolloEnrichmentRequest.webhook_url (enrichPerson_params data serverWebhookUrl)
  = present (EnrichPersonInput.webhook_url data).
Proof.
  intros (_ & _ & Hhook)%enrichPersonInputSchema_inr.
  unfold enrichPerson_params, present, Js.or_null. cbn.
  unfold refine_webhook, truthy_str in Hhook. unfold Js.or_opt.
  destruct (Js.truthy_opt Js.truthy_string (EnrichPersonInput.webhook_url data)); [done|].
  by destruct (truthy_flag _ || truthy_flag _).
Qed.

Lemma or_default_string_nonempty (a : option string) (d : string) :
  d ≠ "" → Js.or_default Js.truthy_string a d ≠ "".
Proof.
  intros Hd. unfold Js.or_default. destruct a as [s|]; [|done].
  destruct (Js.truthy_string s) eqn:E; [|done]. by apply truthy_string_spec.
Qed.

(** X12. When an enrichment call is asynchronous, the [webhook_url] of
    the outcome is the non-empty [webhook_url] the caller put in the
    input. *)
Theorem executeEnrichPerson_async_echoes_input_webhook (fmt : z.formats)
    (fetch : string → RequestInit.t → outcome (Response.t RawEnrichBody.t))
    (client : ApolloClient.t) (input : jsobject) (serverWebhookUrl : option string)
    (out : EnrichmentResult) :
  executeEnrichPerson fmt fetch client input serverWebhookUrl = inr out →
  EnrichmentResult.is_async out = true →
  ∃ url, input !! "webhook_url" = Some (JStr url)
         ∧ url ≠ ""
         ∧ EnrichmentResult.webhook_url out = Some url.
Proof.
  intros Hexec Hasync.
  destruct (enrichPersonInputSchema fmt input) as [e|data] eqn:Hparse;
    [unfold executeEnrichPerson in Hexec; by rewrite Hparse in Hexec|].
  rewrite (executeEnrichPerson_validated _ _ _ _ _ _ Hparse) in Hexec. cbv zeta in Hexec.
  rewrite (enrichPerson_params_webhook _ _ _ _ Hparse) in Hexec.
  destruct (ApolloClient.makeRequest _ _ _ _) as [e|answer]; [done|].
  cbn [bind ret] in Hexec. injection Hexec as <-.
  cbn [EnrichmentResult.is_async EnrichmentResult.webhook_url] in *. rewrite Hasync.
  apply enrichPersonInputSchema_inr in Hparse as (Hobj & _ & Hhook).
  unfold refine_webhook in Hhook. rewrite Hasync in Hhook.
  destruct (enrichPersonInputObject_fields _ _ _ Hobj)
    as (_ & _ & _ & _ & _ & _ & _ & _ & _ & Hfield).
  destruct (EnrichPersonInput.webhook_url data) as [url|] eqn:Hurl; [|done].
  apply optional_string_spec in Hfield as [Hinput _].
  apply truthy_string_spec in Hhook.
  exists url. split_and!; [done | done |]. by apply present_Some.
Qed.

Lemma executeEnrichPerson_async_echoes_input_webhook_witness :
  ∃ out,
    executeEnrichPerson sample_formats fetch_enriched sample_client
      waterfall_input_with_webhook server_default = inr out
    ∧ EnrichmentResult.webhook_url out = Some "https://caller.example.com/hook".
Proof.
  eexists. split; [vm_compute; reflexivity|].
  destruct (executeEnrichPerson_async_echoes_input_webhook sample_formats fetch_enriched
              sample_client waterfall_input_with_webhook server_default _ eq_refl eq_refl)
    as (url & Hinput & _ & Hecho).
  vm_compute in Hinput. injection Hinput as <-. exact Hecho.
Defined.

(** X13. The status of an enrichment outcome is never the empty string. *)
Theorem executeEnrichPerson_status_nonempty (fmt : z.formats)
    (fetch : string → RequestInit.t → outcome (Response.t RawEnrichBody.t))
    (client : ApolloClient.t) (input : jsobject) (serverWebhookUrl : option string)
    (out : EnrichmentResult) :
  executeEnrichPerson fmt fetch client input serverWebhookUrl = inr out →
  EnrichmentResult.status out ≠ "".
Proof.
  intros Hexec.
  destruct (enrichPersonInputSchema fmt input) as [e|data] eqn:Hparse;
    [unfold executeEnrichPerson in Hexec; by rewrite Hparse in Hexec|].
  rewrite (executeEnrichPerson_validated _ _ _ _ _ _ Hparse) in Hexec. cbv zeta in Hexec.
  destruct (ApolloClient.makeRequest _ _ _ _) as [e|answer]; [done|].
  cbn [bind ret] in Hexec. injection Hexec as <-.
  cbn [EnrichmentResult.status]. by apply or_default_string_nonempty.
Qed.

Lemma executeEnrichPerson_status_nonempty_witness :
  ∃ out,
    executeEnrichPerson sample_formats fetch_blank_enrichment sample_client
      email_input None = inr out
    ∧ EnrichmentResult.status out ≠ "".
Proof.
  eexists. split; [vm_compute; reflexivity|].
  eapply (executeEnrichPerson_status_nonempty sample_formats fetch_blank_enrichment
            sample_client email_input None).
  vm_compute. reflexivity.
Defined.

(** X14. For an accepted enrichment input and an answer of the provider,
    the call succeeds; the outcome's person is the normalized provider
    person, or null exactly when the provider returned none; its status is
    the provider's status, or ["unknown"] when that is missing or empty;
    and the job id and job status are passed through. *)
Theorem executeEnrichPerson_outcome (fmt : z.formats)
    (fetch : string → RequestInit.t → outcome (Response.t RawEnrichBody.t))
    (client : ApolloClient.t) (input : jsobject) (serverWebhookUrl : option string)
    (data : EnrichPersonInput.t) (answer : RawEnrichBody.t) :
  enrichPersonInputSchema fmt input = inr data →
  ApolloClient.makeRequest fetch client ENRICHMENT_ENDPOINT
    (ApolloClient.enrichPerson_body (enrichPerson_params data serverWebhookUrl))
    = inr answer →
  ∃ out,
    executeEnrichPerson fmt fetch client input serverWebhookUrl = inr out
    ∧ EnrichmentResult.person out
      = ApolloClient.normalizeEnrichedPerson <$> RawEnrichBody.person answer
    ∧ (EnrichmentResult.person out = None ↔ RawEnrichBody.person answer = None)
    ∧ EnrichmentResult.status out
      = match RawEnrichBody.status answer with
        | Some s => if decide (s = "") then "unknown" else s
        | None => "unknown"
        end
    ∧ EnrichmentResult.enrichment_request_id out = RawEnrichBody.enrichment_request_id answer
    ∧ EnrichmentResult.enrichment_status out = RawEnrichBody.enrichment_status answer.
Proof.
  intros Hparse Hanswer.
  rewrite (executeEnrichPerson_validated _ _ _ _ _ _ Hparse). cbv zeta.
  rewrite Hanswer. cbn [bind ret]. eexists. split; [reflexivity|].
  cbn [EnrichmentResult.person EnrichmentResult.status
       EnrichmentResult.enrichment_request_id EnrichmentResult.enrichment_status].
  split; [done|]. split; [|split; [|done]].
  - by destruct (RawEnrichBody.person answer).
  - unfold Js.or_default. destruct (RawEnrichBody.status answer) as [s|]; [|done].
    case_decide as Hs.
    + subst s. reflexivity.
    + apply truthy_string_spec in Hs. by rewrite Hs.
Qed.

Lemma executeEnrichPerson_outcome_witness :
  ∃ out,
    executeEnrichPerson sample_formats fetch_blank_enrichment sample_client
      email_input None = inr out
    ∧ EnrichmentResult.person out = None
    ∧ EnrichmentResult.status out = "unknown".
Proof.
  destruct (executeEnrichPerson_outcome sample_formats fetch_blank_enrichment sample_client
              email_input None
              (EnrichPersonInput.mk (Some "a@b.com") None None None None None None
                 false false None None None)
              (RawEnrichBody.mk None (Some "") None None None))
    as (out & Hout & Hperson & _ & Hstatus & _).
  - vm_compute. reflexivity.
  - vm_compute. reflexivity.
  - exists out. split; [exact Hout|]. split; [exact Hperson | exact Hstatus].
Defined.

Lemma present_idempotent (o : option string) : present (present o) = present o.
Proof.
  destruct (present o) as [s|] eqn:E; [|done].
  apply present_Some in E as [_ Hs]. by apply present_Some.
Qed.

(** Every key of the enrichment body, read off the parameters. *)
Lemma enrichPerson_body_lookup (params : ApolloEnrichmentRequest) :
  let body := ApolloClient.enrichPerson_body params in
  body !! "email" = JStr <$> present (ApolloEnrichmentRequest.email params)
  ∧ body !! "linkedin_url" = JStr <$> present (ApolloEnrichmentRequest.linkedin_url params)
  ∧ body !! "first_name" = JStr <$> present (ApolloEnrichmentRequest.first_name params)
  ∧ body !! "last_name" = JStr <$> present (ApolloEnrichmentRequest.last_name params)
  ∧ body !! "name" = JStr <$> present (ApolloEnrichmentRequest.name params)
  ∧ body !! "organization_name"
    = JStr <$> present (ApolloEnrichmentRequest.organization_name params)
  ∧ body !! "domain" = JStr <$> present (ApolloEnrichmentRequest.domain params)
  ∧ body !! "webhook_url" = JStr <$> present (ApolloEnrichmentRequest.webhook_url params)
  ∧ body !! "reveal_personal_emails"
    = (if truthy_flag (ApolloEnrichmentRequest.reveal_personal_emails params)
       then Some (JBool true) else None)
  ∧ body !! "reveal_phone_number"
    = (if truthy_flag (ApolloEnrichmentRequest.reveal_phone_number params)
       then Some (JBool true) else None)
  ∧ body !! "run_waterfall_email"
    = (if truthy_flag (ApolloEnrichmentRequest.run_waterfall_email params)
       then Some (JBool true) else None)
  ∧ body !! "run_waterfall_phone"
    = (if truthy_flag (ApolloEnrichmentRequest.run_waterfall_phone params)
       then Some (JBool true) else None).
Proof.
  simpl. unfold truthy_flag.
  split_and!; lookup_body;
    first [by destruct (present _) | by destruct (Js.truthy_opt _ _)].
Qed.

Lemma forwards_string_intro (check : string → bool) (body input : jsobject) (key : string)
    (o : option string) :
  body !! key = JStr <$> present o →
  z.optional (z.string_ check) (input !! key) = Some o →
  forwards_string body input key.
Proof.
  intros Hbody Hfield%optional_string_spec v. rewrite Hbody. split.
  - destruct (present o) as [s|] eqn:E; [|done]. intros [= <-].
    apply present_Some in E as [-> Hs]. destruct Hfield as [Hinput _]. by exists s.
  - intros (s & -> & Hinput & Hs). rewrite Hinput in Hfield.
    destruct o as [s'|]; [|done]. destruct Hfield as [[= ->] _].
    by rewrite (proj2 (present_Some (Some s') s')).
Qed.

Lemma forwards_flag_intro (body input : jsobject) (key : string) (o : option bool) :
  body !! key = (if truthy_flag o then Some (JBool true) else None) →
  (truthy_flag o = true ↔ input !! key = Some (JBool true)) →
  forwards_flag body input key.
Proof.
  intros Hbody Hon v. rewrite Hbody.
  destruct (truthy_flag o); split.
  - intros [= <-]. split; [done | by apply Hon].
  - by intros [-> _].
  - done.
  - intros [_ Hinput]. apply Hon in Hinput. done.
Qed.

Lemma with_default_boolean_on (input : jsobject) (key : string) (b : bool) :
  z.with_default z.boolean false (input !! key) = Some b →
  (truthy_flag (Some b) = true ↔ input !! key = Some (JBool true)).
Proof.
  unfold z.with_default, z.boolean, truthy_flag, Js.truthy_opt.
  destruct (input !! key) as [[|b'| | | |]|]; try done.
  - intros [= <-]. destruct b'; split; congruence.
  - intros [= <-]. split; congruence.
Qed.

(** X15. For an accepted enrichment input, the request body forwards
    each identifier and the [webhook_url] exactly when the caller supplied
    it as a non-empty string, and each reveal or waterfall flag exactly when
    the caller set it to [true]; the server's default callback URL is never
    sent.  If that request fails, the executor fails with the same error. *)
Theorem executeEnrichPerson_request_body (fmt : z.formats)
    (fetch : string → RequestInit.t → outcome (Response.t RawEnrichBody.t))
    (client : ApolloClient.t) (input : jsobject) (serverWebhookUrl : option string)
    (data : EnrichPersonInput.t) :
  enrichPersonInputSchema fmt input = inr data →
  let body := ApolloClient.enrichPerson_body (enrichPerson_params data serverWebhookUrl) in
  (forwards_string body input "email"
   ∧ forwards_string body input "linkedin_url"
   ∧ forwards_string body input "first_name"
   ∧ forwards_string body input "last_name"
   ∧ forwards_string body input "name"
   ∧ forwards_string body input "organization_name"
   ∧ forwards_string body input "domain"
   ∧ forwards_string body input "webhook_url")
  ∧ (forwards_flag body input "reveal_personal_emails"
     ∧ forwards_flag body input "reveal_phone_number"
     ∧ forwards_flag body input "run_waterfall_email"
     ∧ forwards_flag body input "run_waterfall_phone")
  ∧ (∀ e, ApolloClient.makeRequest fetch client ENRICHMENT_ENDPOINT body = inl e →
          executeEnrichPerson fmt fetch client input serverWebhookUrl = inl e).
Proof.
  intros Hparse. cbv zeta.
  pose proof (enrichPerson_params_webhook _ _ _ serverWebhookUrl Hparse) as Hwebhook.
  destruct (enrichPerson_body_lookup (enrichPerson_params data serverWebhookUrl))
    as (Be & Bl & Bf & Bla & Bn & Bo & Bd & Bw & Brp & Brn & Bwe & Bwp).
  rewrite Hwebhook, present_idempotent in Bw.
  pose proof Hparse as (Hobj & _ & _)%enrichPersonInputSchema_inr.
  destruct (enrichPersonInputObject_fields _ _ _ Hobj)
    as (He & Hl & Hf & Hla & Hn & Ho & Hd & Hwe & Hwp & Hw).
  destruct (enrichPersonInputObject_all_fields _ _ _ Hobj) as (_ & Hrp & Hrn).
  split; [|split].
  - split_and!; eapply forwards_string_intro; eassumption.
  - split_and!.
    + apply (forwards_flag_intro _ _ _ (Some (EnrichPersonInput.reveal_personal_emails data)));
        [exact Brp | by apply with_default_boolean_on].
    + apply (forwards_flag_intro _ _ _ (Some (EnrichPersonInput.reveal_phone_number data)));
        [exact Brn | by apply with_default_boolean_on].
    + apply (forwards_flag_intro _ _ _ (EnrichPersonInput.run_waterfall_email data));
        [exact Bwe | by apply optional_boolean_on].
    + apply (forwards_flag_intro _ _ _ (EnrichPersonInput.run_waterfall_phone data));
        [exact Bwp | by apply optional_boolean_on].
  - intros e He'. rewrite (executeEnrichPerson_validated _ _ _ _ _ _ Hparse).
    cbv zeta. by rewrite He'.
Qed.

Lemma executeEnrichPerson_request_body_witness :
  forwards_string
    (ApolloClient.enrichPerson_body
       (enrichPerson_params
          (EnrichPersonInput.mk (Some "a@b.com") None None None None None None
             false false None None None)
          server_default))
    email_input "webhook_url".
Proof.
  destruct (executeEnrichPerson_request_body sample_formats fetch_down sample_client
              email_input server_default
              (EnrichPersonInput.mk (Some "a@b.com") None None None None None None
                 false false None None None))
    as ((_ & _ & _ & _ & _ & _ & _ & Hwebhook) & _ & _).
  - vm_compute. reflexivity.
  - exact Hwebhook.
Defined.

(** X16. Whatever parameters [enrichPerson] is called with, the request
    body has no keys besides the seven identifiers, the four flags and
    [webhook_url], and none of its values is the empty string. *)
Theorem enrichPerson_body_shape (params : ApolloEnrichmentRequest) :
  let body := ApolloClient.enrichPerson_body params in
  (∀ key, is_Some (body !! key) → key ∈ enrich_body_keys)
  ∧ (∀ key, body !! key ≠ Some (JStr "")).
Proof.
  simpl. split.
  - intros key Hkey. unfold enrich_body_keys.
    destruct (decide (key = "email")) as [->|?]; [set_solver|].
    destruct (decide (key = "linkedin_url")) as [->|?]; [set_solver|].
    destruct (decide (key = "first_name")) as [->|?]; [set_solver|].
    destruct (decide (key = "last_name")) as [->|?]; [set_solver|].
    destruct (decide (key = "name")) as [->|?]; [set_solver|].
    destruct (decide (key = "organization_name")) as [->|?]; [set_solver|].
    destruct (decide (key = "domain")) as [->|?]; [set_solver|].
    destruct (decide (key = "reveal_personal_emails")) as [->|?]; [set_solver|].
    destruct (decide (key = "reveal_phone_number")) as [->|?]; [set_solver|].
    destruct (decide (key = "run_waterfall_email")) as [->|?]; [set_solver|].
    destruct (decide (key = "run_waterfall_phone")) as [->|?]; [set_solver|].
    destruct (decide (key = "webhook_url")) as [->|?]; [set_solver|].
    exfalso. revert Hkey. unfold ApolloClient.enrichPerson_body. cbv zeta.
    rewrite !lookup_set_string_ne, !lookup_set_true_ne, !lookup_set_string_ne, lookup_empty
      by done.
    by intros [? [=]].
  - assert (Hstring : ∀ k o (body : jsobject),
              (∀ key, body !! key ≠ Some (JStr "")) →
              ∀ key, set_string k o body !! key ≠ Some (JStr "")).
    { intros k o body Hbody key. destruct (decide (k = key)) as [->|Hne].
      - rewrite lookup_set_string_eq. destruct (present o) as [s|] eqn:E; [|apply Hbody].
        apply present_Some in E. naive_solver.
      - rewrite lookup_set_string_ne by done. apply Hbody. }
    assert (Hflag : ∀ k o (body : jsobject),
              (∀ key, body !! key ≠ Some (JStr "")) →
              ∀ key, set_true k o body !! key ≠ Some (JStr "")).
    { intros k o body Hbody key. destruct (decide (k = key)) as [->|Hne].
      - rewrite lookup_set_true_eq. destruct (Js.truthy_opt _ _); [done | apply Hbody].
      - rewrite lookup_set_true_ne by done. apply Hbody. }
    unfold ApolloClient.enrichPerson_body. cbv zeta.
    repeat first [apply Hstring | apply Hflag].
    intros key. by rewrite lookup_empty.
Qed.

(** X17. For an accepted enrichment input, whatever goes wrong with the
    request reaches the caller unchanged: a rejected [fetch] and an
    unreadable JSON answer surface as they are, and a non-2xx response
    surfaces as the error ["Apollo API error: <status> <statusText>"]. *)
Theorem executeEnrichPerson_provider_failure (fmt : z.formats)
    (fetch : string → RequestInit.t → outcome (Response.t RawEnrichBody.t))
    (client : ApolloClient.t) (input : jsobject) (serverWebhookUrl : option string)
    (data : EnrichPersonInput.t) :
  enrichPersonInputSchema fmt input = inr data →
  let request :=
    ApolloClient.request_init client
      (ApolloClient.enrichPerson_body (enrichPerson_params data serverWebhookUrl)) in
  (∀ e, fetch ENRICHMENT_ENDPOINT request = inl e →
        executeEnrichPerson fmt fetch client input serverWebhookUrl = inl e)
  ∧ (∀ response, fetch ENRICHMENT_ENDPOINT request = inr response →
        Response.ok response = false →
        executeEnrichPerson fmt fetch client input serverWebhookUrl
        = inl (Error ("Apollo API error: " +:+ pretty (Response.status response)
                        +:+ " " +:+ Response.statusText response)))
  ∧ (∀ response e, fetch ENRICHMENT_ENDPOINT request = inr response →
        Response.ok response = true →
        Response.json response = inl e →
        executeEnrichPerson fmt fetch client input serverWebhookUrl = inl e).
Proof.
  intros Hparse. cbv zeta.
  rewrite (executeEnrichPerson_validated _ _ _ _ _ _ Hparse). cbv zeta.
  unfold ApolloClient.makeRequest. split_and!.
  - by intros e ->.
  - intros response -> Hok. cbn [bind]. by rewrite Hok.
  - intros response e -> Hok Hjson. cbn [bind]. by rewrite Hok, Hjson.
Qed.

Lemma executeEnrichPerson_provider_failure_witness :
  executeEnrichPerson sample_formats fetch_down sample_client email_input None
    = inl (FetchFailed "connect ECONNREFUSED")
  ∧ executeEnrichPerson sample_formats fetch_unauthorized sample_client email_input None
    = inl (Error "Apollo API error: 401 Unauthorized").
Proof.
  assert (Hparse : enrichPersonInputSchema sample_formats email_input
                   = inr (EnrichPersonInput.mk (Some "a@b.com") None None None None None None
                            false false None None None))
    by (vm_compute; reflexivity).
  split.
  - destruct (executeEnrichPerson_provider_failure sample_formats fetch_down sample_client
                email_input None _ Hparse) as (Hdown & _ & _).
    by apply Hdown.
  - destruct (executeEnrichPerson_provider_failure sample_formats fetch_unauthorized
                sample_client email_input None _ Hparse) as (_ & Hstatus & _).
    exact (Hstatus unauthorized eq_refl eq_refl).
Defined.

(** ** The client's credential *)

(** X18. A client can be constructed exactly from a non-empty API key;
    the empty key fails with ["Apollo API key is required"].  Every request
    of a constructed client is a POST that carries the key in its
    [x-api-key] header and the given body unchanged. *)
Theorem constructor_requires_key (apiKey : string) :
  ApolloClient.constructor "" = inl (Error "Apollo API key is required")
  ∧ (apiKey ≠ "" →
     ∃ client,
       ApolloClient.constructor apiKey = inr client
       ∧ ApolloClient.apiKey client = apiKey
       ∧ ∀ body,
           RequestInit.method (ApolloClient.request_init client body) = "POST"
           ∧ ("x-api-key", apiKey) ∈ RequestInit.headers (ApolloClient.request_init client body)
           ∧ RequestInit.body (ApolloClient.request_init client body) = body)
  ∧ (∀ client, ApolloClient.constructor apiKey = inr client → apiKey ≠ "").
Proof.
  split; [reflexivity|]. unfold ApolloClient.constructor. split.
  - intros Hkey%truthy_string_spec. rewrite Hkey. simpl. eexists. split; [reflexivity|].
    split; [reflexivity|]. intros body. cbn. set_solver.
  - intros client. destruct (Js.truthy_string apiKey) eqn:E; [|done].
    intros _. by apply truthy_string_spec.
Qed.

Lemma constructor_requires_key_witness :
  ∃ client, ApolloClient.constructor "sk-test-0001" = inr client
            ∧ ApolloClient.apiKey client = "sk-test-0001".
Proof.
  destruct (constructor_requires_key "sk-test-0001") as (_ & Hbuilt & _).
  destruct Hbuilt as (client & Hclient & Hkey & _); [discriminate|].
  exists client. by split.
Defined.

(** ** More on the normalizers *)

Lemma or_null_number (a : option Z) :
  Js.or_null Js.truthy_number a
  = match a with
    | Some n => if decide (n = 0%Z) then None else Some n
    | None => None
    end.
Proof.
  unfold Js.or_null, Js.or_opt, Js.truthy_opt. destruct a as [n|]; [|done].
  destruct (Js.truthy_number n) eqn:E.
  - apply truthy_number_spec in E. by case_decide.
  - case_decide as Hn; [done|]. apply truthy_number_spec in Hn. congruence.
Qed.

Lemma present_not_empty (o : option string) : present o ≠ Some "".
Proof. intros H. apply present_Some in H. naive_solver. Qed.

Lemma company_of_clean (organization_id : option string)
    (organization : option ApolloOrganization) :
  company_clean (ApolloClient.company_of organization_id organization).
Proof.
  unfold company_clean, ApolloClient.company_of.
  cbn [Company.name Company.domain Company.website Company.linkedin_url Company.industry
       Company.employee_count].
  split_and!; try exact (present_not_empty _).
  rewrite or_null_number. destruct (Js.chain _ _) as [n|]; [|done].
  case_decide; congruence.
Qed.

Lemma present_numbers_length (phones : list ApolloPhoneNumber) :
  (length (present_numbers phones) ≤ length phones)%nat.
Proof.
  induction phones as [|phone phones IH]; [done|].
  rewrite present_numbers_cons. destruct (present _); simpl; lia.
Qed.

Lemma company_of_from (organization_id : option string) (organization : ApolloOrganization) :
  ApolloClient.company_of organization_id (Some organization)
  = company_from organization_id organization.
Proof.
  unfold ApolloClient.company_of, company_from. cbn [Js.chain]. by rewrite or_null_number.
Qed.

(** X19. In the company block of either normalizer no text field is the
    empty string and the employee count is not zero: empty texts and a zero
    count coming from the provider's organization object are turned into
    null.  With an organization object, [name], [domain], [website],
    [linkedin_url], [industry] and [employee_count] are projected from its
    [name], [primary_domain], [website_url], [linkedin_url], [industry] and
    [estimated_num_employees]. *)
Theorem company_block_projection :
  (∀ person : ApolloPersonSearch,
     let company := NormalizedPerson.company (ApolloClient.normalizeSearchPerson person) in
     company_clean company
     ∧ ∀ organization,
         ApolloPersonSearch.organization person = Some organization →
         company = company_from (ApolloPersonSearch.organization_id person) organization)
  ∧ (∀ person : ApolloEnrichedPerson,
     let company := NormalizedPerson.company (ApolloClient.normalizeEnrichedPerson person) in
     company_clean company
     ∧ ∀ organization,
         ApolloEnrichedPerson.organization person = Some organization →
         company = company_from (ApolloEnrichedPerson.organization_id person) organization).
Proof.
  split; intros person; cbn [NormalizedPerson.company ApolloClient.normalizeSearchPerson
                               ApolloClient.normalizeEnrichedPerson];
    (split; [apply company_of_clean|]); intros organization ->; apply company_of_from.
Qed.

Lemma company_block_projection_witness :
  NormalizedPerson.company (ApolloClient.normalizeSearchPerson jane_at_acme)
  = Company.mk (Some "5e66b6") (Some "Acme") (Some "acme.example") None None None None.
Proof.
  destruct company_block_projection as [Hsearch _].
  destruct (Hsearch jane_at_acme) as [_ Hfrom].
  exact (Hfrom acme_organization eq_refl).
Defined.

(** X20. The two normalizers agree on everything but contact data:
    normalizing an enrichment-result person and blanking its e-mail,
    personal e-mails and phone numbers gives the same canonical person as
    normalizing the search-shaped record with the same shared fields. *)
Theorem normalizers_agree_up_to_contact_data (person : ApolloEnrichedPerson) :
  ApolloClient.normalizeSearchPerson (as_search_person person)
  = without_contact_data (ApolloClient.normalizeEnrichedPerson person).
Proof. reflexivity. Qed.

(** X21. A non-empty [sanitized_phone] is always the first normalized
    phone number and occurs only once, however often the phone list repeats
    it; the normalized list is never longer than the phone list plus
    that one entry. *)
Theorem sanitized_phone_comes_first (person : ApolloEnrichedPerson) (s : string) :
  ApolloEnrichedPerson.sanitized_phone person = Some s →
  s ≠ "" →
  ∃ rest,
    NormalizedPerson.phone_numbers (ApolloClient.normalizeEnrichedPerson person) = s :: rest
    ∧ (s ∉ rest)
    ∧ (length rest ≤ length (default [] (ApolloEnrichedPerson.phone_numbers person)))%nat.
Proof.
  intros Hphone Hs.
  cbn [NormalizedPerson.phone_numbers ApolloClient.normalizeEnrichedPerson].
  pose proof (collect_phoneNumbers_spec person) as Hspec.
  assert (Hfirst : present (ApolloEnrichedPerson.sanitized_phone person) = Some s)
    by (apply present_Some; by rewrite Hphone).
  rewrite Hfirst in Hspec. unfold spec_phone_numbers in Hspec. simpl in Hspec.
  destruct (fold_append_if_new_sublist
              (present_numbers (default [] (ApolloEnrichedPerson.phone_numbers person))) [s])
    as (rest & Hfold & Hsub).
  pose proof (fold_append_if_new_NoDup
                (present_numbers (default [] (ApolloEnrichedPerson.phone_numbers person))) [s]
                (NoDup_singleton s)) as Hnodup.
  rewrite Hfold in Hspec, Hnodup. simpl in Hspec, Hnodup.
  exists rest. split; [done|]. split.
  - by apply NoDup_cons in Hnodup as [? _].
  - apply sublist_length in Hsub. etransitivity; [exact Hsub|].
    apply present_numbers_length.
Qed.

Lemma sanitized_phone_comes_first_witness :
  ∃ rest,
    NormalizedPerson.phone_numbers (ApolloClient.normalizeEnrichedPerson repeated_phone_person)
    = "+1-555" :: rest
    ∧ ("+1-555" ∉ rest).
Proof.
  destruct (sanitized_phone_comes_first repeated_phone_person "+1-555")
    as (rest & Hlist & Hfresh & _); [reflexivity | discriminate |].
  exists rest. split; [exact Hlist | exact Hfresh].
Defined.

(** ** The server's default callback URL *)

(** X22. The [serverWebhookUrl] argument of [executeEnrichPerson] changes
    nothing: two calls that differ only in it have the same outcome, and
    for an accepted input they send the same request body. *)
Theorem executeEnrichPerson_ignores_server_default (fmt : z.formats)
    (fetch : string → RequestInit.t → outcome (Response.t RawEnrichBody.t))
    (client : ApolloClient.t) (input : jsobject) (server1 server2 : option string) :
  executeEnrichPerson fmt fetch client input server1
  = executeEnrichPerson fmt fetch client input server2
  ∧ (∀ data, enrichPersonInputSchema fmt input = inr data →
       ApolloClient.enrichPerson_body (enrichPerson_params data server1)
       = ApolloClient.enrichPerson_body (enrichPerson_params data server2)).
Proof.
  split; [apply executeEnrichPerson_server_default_unused|].
  intros data Hparse.
  pose proof (enrichPerson_params_webhook _ _ _ server1 Hparse) as H1.
  pose proof (enrichPerson_params_webhook _ _ _ server2 Hparse) as H2.
  unfold enrichPerson_params in *. cbv zeta in *.
  cbn [ApolloEnrichmentRequest.webhook_url] in H1, H2. by rewrite H1, H2.
Qed.

Lemma executeEnrichPerson_ignores_server_default_witness :
  executeEnrichPerson sample_formats fetch_enriched sample_client waterfall_input None
  = executeEnrichPerson sample_formats fetch_enriched sample_client waterfall_input
      server_default.
Proof.
  apply (executeEnrichPerson_ignores_server_default sample_formats fetch_enriched
           sample_client waterfall_input None server_default).
Defined.
